(** * ezdxf text layout engine: box model, cell normalisation, placement

    A shallow embedding of [src/ezdxf/tools/text_layout.py].

    Conventions of the embedding
    - Python numbers ([int] and [float]) are rationals [Q]; numeric results
      are compared with [==] ([Qeq]), so the statements are about exact
      arithmetic and say nothing about floating point rounding.  Sums are
      written with the grouping of the source.
    - Where the rounding of a sum matters, module [Float64] gives the size
      properties over binary64 numbers, Python's [float].
    - A Python value that may be [None] is an [option]; [None] is Python's
      [None].
    - A call that may raise returns a [result]; the exception classes are
      the constructors of [exn].
    - Objects are records; a method that mutates [self] returns the updated
      record. *)

From Stdlib Require Import List String ZArith QArith Bool Lia Floats.
Import ListNotations.

Set Implicit Arguments.

Open Scope string_scope.
Open Scope list_scope.
Open Scope Q_scope.

(* ================================================================== *)
(** * Exceptions and fallible computations *)

Inductive exn : Type :=
| ValueError (msg : string)
| TypeError
| AttributeError (attr : string)
| IndexError.

Inductive result (A : Type) : Type :=
| Ok (a : A)
| Raise (e : exn).

Arguments Ok {A} a.
Arguments Raise {A} e.

Definition bind {A B : Type} (r : result A) (k : A -> result B) : result B :=
  match r with
  | Ok a => k a
  | Raise e => Raise e
  end.

Declare Scope result_scope.
Delimit Scope result_scope with result.
Notation "x <- r ;; k" := (bind r (fun x => k))
  (at level 61, r at next level, right associativity) : result_scope.
Notation "' p <- r ;; k" := (bind r (fun p => k))
  (at level 61, p pattern, r at next level, right associativity) : result_scope.
Open Scope result_scope.

(* ================================================================== *)
(** * Simple boxes: glue and content cells *)

(** The renderer attached to a content cell or container is supplied by
    the caller; only its identity matters here. *)
Inductive ContentRenderer : Type := Renderer (id : nat).

(** Modelled from the spec: the 4 x 4 affine transform type [Matrix44] of
    [ezdxf.math], whose source is not part of this module.  The engine
    only passes a matrix on to the renderers; a matrix is not a number. *)
Inductive Matrix44 : Type := matrix44 (values : list Q).

Definition Tuple4f : Type := (Q * Q * Q * Q)%type.
Definition Tuple2f : Type := (Q * Q)%type.

(** State of a [Glue] instance. *)
Record Glue : Type := mkGlue {
  _min_width : Q;
  _width : Q
}.

Definition Qmax (a b : Q) : Q := if Qle_bool b a then a else b.

Definition Glue_resize (self : Glue) (width : Q) : Glue :=
  {| _min_width := _min_width self;
     _width := Qmax width (_min_width self) |}.

Definition Glue_init (width min_width : Q) : Glue :=
  Glue_resize {| _min_width := min_width; _width := 0 |} width.

(** State of a [ContentCell] instance. *)
Record ContentCell : Type := mkContentCell {
  cc_final_x : option Q;
  cc_final_y : option Q;
  cc_width : Q;
  cc_height : Q;
  cc_renderer : ContentRenderer
}.

Definition ContentCell_init (width height : Q) (renderer : ContentRenderer)
  : ContentCell :=
  {| cc_final_x := None; cc_final_y := None;
     cc_width := width; cc_height := height; cc_renderer := renderer |}.

Definition ContentCell_place (self : ContentCell) (x y : Q) : ContentCell :=
  {| cc_final_x := Some x; cc_final_y := Some y;
     cc_width := cc_width self; cc_height := cc_height self;
     cc_renderer := cc_renderer self |}.

Definition ContentCell_set_final_location := ContentCell_place.

Definition ContentCell_final_location (self : ContentCell)
  : option Q * option Q :=
  (cc_final_x self, cc_final_y self).

(** The concrete cell classes.  [Glue] and [ContentCell] themselves are
    marked [# ABC] in the source and are not instantiated. *)
Inductive Cell : Type :=
| Space (g : Glue)
| SoftHyphen (g : Glue)
| NonBreakingSpace (g : Glue)
| Tab (g : Glue)
| Text (c : ContentCell)
| Fraction (c : ContentCell).

(** [cell.final_location()]: only content cells have the method. *)
Definition Cell_final_location (cell : Cell)
  : result (option Q * option Q) :=
  match cell with
  | Text c | Fraction c => Ok (ContentCell_final_location c)
  | _ => Raise (AttributeError "final_location")
  end.

(** [type(cell)] *)
Inductive CellType : Type :=
| TSpace | TSoftHyphen | TNonBreakingSpace | TTab | TText | TFraction.

Definition type (cell : Cell) : CellType :=
  match cell with
  | Space _ => TSpace
  | SoftHyphen _ => TSoftHyphen
  | NonBreakingSpace _ => TNonBreakingSpace
  | Tab _ => TTab
  | Text _ => TText
  | Fraction _ => TFraction
  end.

Definition CellType_eqb (a b : CellType) : bool :=
  match a, b with
  | TSpace, TSpace | TSoftHyphen, TSoftHyphen
  | TNonBreakingSpace, TNonBreakingSpace | TTab, TTab
  | TText, TText | TFraction, TFraction => true
  | _, _ => false
  end.

Definition Cell_total_width (cell : Cell) : Q :=
  match cell with
  | Space g | SoftHyphen g | NonBreakingSpace g | Tab g => _width g
  | Text c | Fraction c => cc_width c
  end.

Definition Cell_total_height (cell : Cell) : Q :=
  match cell with
  | Space _ | SoftHyphen _ | NonBreakingSpace _ | Tab _ => 0
  | Text c | Fraction c => cc_height c
  end.

Definition can_break (cell : Cell) : bool :=
  match cell with
  | NonBreakingSpace _ => false
  | _ => true
  end.

Definition _content : list CellType := [TText; TFraction].
Definition _glue : list CellType :=
  [TSpace; TNonBreakingSpace; TSoftHyphen; TTab].

(** [t in s] for a value [t] that is a cell class or [None]. *)
Definition in_ (t : option CellType) (s : list CellType) : bool :=
  match t with
  | None => false
  | Some c => existsb (CellType_eqb c) s
  end.

(** [a is b] on cell classes or [None]. *)
Definition is_ (t : option CellType) (c : CellType) : bool :=
  match t with
  | None => false
  | Some d => CellType_eqb d c
  end.

(* ================================================================== *)
(** * normalize_cells *)

Module Normalize.

(** The local function [peek]: the class of [cells[index + 1]], or [None]
    when the index is out of range. *)
Definition peek (cells : list Cell) (index : nat) : option CellType :=
  match nth_error cells (S index) with
  | Some cell => Some (type cell)
  | None => None
  end.

Definition no_glue : exn := ValueError "no glue between content cells".

(** The [for index, cell in enumerate(cells)] loop.  [todo] is the part of
    [cells] still to be visited, [index] the position of its head, [prev]
    and [content] the loop variables of the same name. *)
Fixpoint loop (cells : list Cell) (index : nat) (todo : list Cell)
         (prev : option CellType) (content : list Cell)
  : result (list Cell) :=
  match todo with
  | [] => Ok content
  | cell :: todo' =>
      let current := Some (type cell) in
      if in_ current _content then
        if in_ prev _content then Raise no_glue
        else loop cells (S index) todo' current (content ++ [cell])
      else
        if is_ current TSoftHyphen then
          if is_ prev TSoftHyphen then
            loop cells (S index) todo' prev content
          else if negb (in_ prev _content)
                  || negb (in_ (peek cells index) _content) then
            loop cells (S index) todo' prev content
          else loop cells (S index) todo' current (content ++ [cell])
        else loop cells (S index) todo' current (content ++ [cell])
  end.

(** [content[-1]] of a non-empty list. *)
Definition last_cell (content : list Cell) : option Cell :=
  match content with
  | [] => None
  | c :: _ => Some (last content c)
  end.

(** The [while content and type(content[-1]) in _glue: content.pop()]
    loop; every iteration removes one cell, so [length content]
    iterations are enough. *)
Fixpoint pop_loop (fuel : nat) (content : list Cell) : list Cell :=
  match fuel with
  | O => content
  | S fuel' =>
      match last_cell content with
      | Some c =>
          if in_ (Some (type c)) _glue
          then pop_loop fuel' (removelast content)
          else content
      | None => content
      end
  end.

Definition remove_pending_glue (content : list Cell) : list Cell :=
  pop_loop (List.length content) content.

Definition normalize_cells (cells : list Cell) : result (list Cell) :=
  content <- loop cells 0 cells None [] ;;
  Ok (remove_pending_glue content).

(** ** Predicates used by the specifications *)

Definition is_content (cell : Cell) : bool := in_ (Some (type cell)) _content.
Definition is_glue (cell : Cell) : bool := in_ (Some (type cell)) _glue.

(** No two neighbours of the list are both content cells. *)
Fixpoint no_adjacent_content (l : list Cell) : bool :=
  match l with
  | [] => true
  | a :: t =>
      match t with
      | [] => true
      | b :: _ => negb (is_content a && is_content b) && no_adjacent_content t
      end
  end.

End Normalize.

(* ================================================================== *)
(** * Margins and anchors *)

(** [resolve_margins]: the function has no branch for a sequence of
    length 0 or of more than four values and then falls off its end, which
    in Python returns [None]. *)
Definition resolve_margins (margins : option (list Q)) : option Tuple4f :=
  match margins with
  | None => Some (0, 0, 0, 0)
  | Some margins =>
      let count := List.length margins in
      let item (i : nat) := nth i margins 0 in
      if (count =? 4)%nat then Some (item 0%nat, item 1%nat, item 2%nat, item 3%nat)
      else if (count =? 3)%nat then Some (item 0%nat, item 1%nat, item 2%nat, item 1%nat)
      else if (count =? 2)%nat then Some (item 0%nat, item 1%nat, item 0%nat, item 1%nat)
      else if (count =? 1)%nat then Some (item 0%nat, item 0%nat, item 0%nat, item 0%nat)
      else None
  end.

Definition insert_location (align : Z) (width height : Q) : Tuple2f :=
  let left := 0 in
  let top := 0 in
  let center := width / 2 in
  let middle := height / 2 in
  if (align =? 1)%Z then (left, top)
  else if (align =? 2)%Z then (- center, 0)
  else if (align =? 3)%Z then (- width, 0)
  else if (align =? 4)%Z then (0, middle)
  else if (align =? 5)%Z then (- center, middle)
  else if (align =? 6)%Z then (- width, middle)
  else if (align =? 7)%Z then (0, height)
  else if (align =? 8)%Z then (- center, height)
  else if (align =? 9)%Z then (- width, height)
  else (left, top).

(* ================================================================== *)
(** * Generators

    [Container.render] and [ContentCell.render] contain [yield]: calling
    them runs nothing and returns a generator object; the body runs when
    the generator is advanced. *)

(** One call of [ContentRenderer.render]; its return value is what the
    engine yields. *)
Record RenderCall : Type := mkRenderCall {
  rc_renderer : ContentRenderer;
  rc_left : Q;
  rc_bottom : Q;
  rc_right : Q;
  rc_top : Q;
  rc_m : option Matrix44
}.

(** A generator body driven to its end: the values it yields, in order,
    and how it ends, by returning (with the final state of [self]) or by
    raising. *)
Record Run (A : Type) : Type := mkRun {
  yielded : list (option RenderCall);
  ended : result A
}.

Definition run_ret {A : Type} (a : A) : Run A := mkRun [] (Ok a).
Definition run_raise {A : Type} (e : exn) : Run A := mkRun [] (Raise e).
Definition run_yield (v : option RenderCall) : Run unit := mkRun [v] (Ok tt).
Definition run_lift {A : Type} (r : result A) : Run A := mkRun [] r.

Definition run_bind {A B : Type} (r : Run A) (k : A -> Run B) : Run B :=
  match ended r with
  | Ok a => mkRun (yielded r ++ yielded (k a)) (ended (k a))
  | Raise e => mkRun (yielded r) (Raise e)
  end.

(** The generator object returned by a call of a generator function. *)
Inductive Generator (A : Type) : Type := Suspended (body : Run A).

(** [next(g)] on a fresh generator: the first yielded value, [None] when
    the body returns without yielding (StopIteration), or the exception
    the body raises before its first [yield]. *)
Definition next {A : Type} (g : Generator A) : result (option (option RenderCall)) :=
  match g with
  | Suspended body =>
      match yielded body with
      | v :: _ => Ok (Some v)
      | [] => match ended body with
              | Ok _ => Ok None
              | Raise e => Raise e
              end
      end
  end.

(** [list(g)] *)
Definition list_ {A : Type} (g : Generator A) : result (list (option RenderCall)) :=
  match g with
  | Suspended body =>
      match ended body with
      | Ok _ => Ok (yielded body)
      | Raise e => Raise e
      end
  end.

(** [yield from <call>] *)
Definition yield_from {A : Type} (call : result (Generator A)) : Run A :=
  match call with
  | Ok (Suspended body) => body
  | Raise e => run_raise e
  end.

(** [entity.render(m)] as [Container.render_content] calls it on a cell of
    a line.  A glue cell has no attribute [render].  For a content cell
    the argument is bound to the first parameter [x] of
    [ContentCell.render(self, x, y, m)]; the call returns a generator
    whose body fails on [x + self.total_width] ([None] or a matrix plus a
    number) before it reaches the renderer. *)
Definition Cell_render (cell : Cell) (m : option Matrix44)
  : result (Generator Cell) :=
  match cell with
  | Text _ | Fraction _ => Ok (Suspended (run_raise TypeError))
  | _ => Raise (AttributeError "render")
  end.

(* ================================================================== *)
(** * Container *)

Record Container : Type := mkContainer {
  _final_x : option Q;
  _final_y : option Q;
  _content_width : option Q;
  _content_height : option Q;
  _margins : option Tuple4f;
  _render : option ContentRenderer
}.

Definition Container_init (width : option Q) (height : option Q)
           (margins : option (list Q)) (render : option ContentRenderer)
  : Container :=
  {| _final_x := None; _final_y := None;
     _content_width := width; _content_height := height;
     _margins := resolve_margins margins;
     _render := render |}.

Definition set_final (c : Container) (x y : Q) : Container :=
  {| _final_x := Some x; _final_y := Some y;
     _content_width := _content_width c;
     _content_height := _content_height c;
     _margins := _margins c; _render := _render c |}.

(** [self._margins[i]] *)
Definition subscript (margins : option Tuple4f) (i : nat) : result Q :=
  match margins with
  | None => Raise TypeError
  | Some (t, r, b, l) =>
      match i with
      | 0%nat => Ok t
      | 1%nat => Ok r
      | 2%nat => Ok b
      | 3%nat => Ok l
      | _ => Raise IndexError
      end
  end.

(** [a + b] where [a] may be [None]. *)
Definition add (a : option Q) (b : Q) : result Q :=
  match a with
  | Some a => Ok (a + b)
  | None => Raise TypeError
  end.

Definition Container_content_width (c : Container) : Q :=
  match _content_width c with
  | None => 0
  | Some w => w
  end.

Definition Container_content_height (c : Container) : Q :=
  match _content_height c with
  | None => 0
  | Some h => h
  end.

(** The methods a subclass of [Container] defines or overrides.
    [container] is the state kept by [Container.__init__]. *)
Class ContainerClass (T : Type) : Type := {
  container : T -> Container;
  with_container : T -> Container -> T;
  content_width : T -> result (option Q);
  content_height : T -> result Q;
  place_content : T -> result T;
  render_content : T -> option Matrix44 -> Run T
}.

(** Methods of [Container] that read the state of [Container.__init__]
    only. *)
Definition Container_top_margin (c : Container) : result Q :=
  subscript (_margins c) 0.
Definition Container_right_margin (c : Container) : result Q :=
  subscript (_margins c) 1.
Definition Container_bottom_margin (c : Container) : result Q :=
  subscript (_margins c) 2.
Definition Container_left_margin (c : Container) : result Q :=
  subscript (_margins c) 3.

Definition Container_is_placed (c : Container) : bool :=
  match _final_x c, _final_y c with
  | Some _, Some _ => true
  | _, _ => false
  end.

(** [Container.final_location]: [is_placed] fails exactly when one of the
    two coordinates is [None]. *)
Definition Container_final_location (c : Container) : result Tuple2f :=
  match _final_x c, _final_y c with
  | Some x, Some y => Ok (x, y)
  | _, _ => Raise (ValueError "Container is not placed.")
  end.

Section ContainerMethods.
Context {T : Type} `{ContainerClass T}.

Definition top_margin (self : T) : result Q :=
  Container_top_margin (container self).
Definition right_margin (self : T) : result Q :=
  Container_right_margin (container self).
Definition bottom_margin (self : T) : result Q :=
  Container_bottom_margin (container self).
Definition left_margin (self : T) : result Q :=
  Container_left_margin (container self).

Definition total_width (self : T) : result Q :=
  cw <- content_width self ;;
  r <- right_margin self ;;
  s <- add cw r ;;
  l <- left_margin self ;;
  Ok (s + l).

Definition total_height (self : T) : result Q :=
  ch <- content_height self ;;
  t <- top_margin self ;;
  b <- bottom_margin self ;;
  Ok (ch + t + b).

Definition has_flex_height (self : T) : bool :=
  match _content_height (container self) with
  | None => true
  | Some _ => false
  end.

Definition is_placed (self : T) : bool :=
  Container_is_placed (container self).

Definition final_location (self : T) : result Tuple2f :=
  Container_final_location (container self).

(** [Container.place] *)
Definition place (self : T) (x y : Q) : result T :=
  place_content (with_container self (set_final (container self) x y)).

Definition render_background (self : T) (m : option Matrix44)
  : result (option RenderCall) :=
  '(x, y) <- final_location self ;;
  match _render (container self) with
  | Some r =>
      h <- total_height self ;;
      w <- total_width self ;;
      Ok (Some {| rc_renderer := r; rc_left := x; rc_bottom := y - h;
                  rc_right := x + w; rc_top := y; rc_m := m |})
  | None => Ok None
  end.

(** The body of the generator function [Container.render]. *)
Definition render_body (self : T) (m : option Matrix44) : Run T :=
  if negb (is_placed self) then
    run_raise (ValueError "Layout has to be placed before rendering")
  else
    run_bind
      (match _render (container self) with
       | Some _ => run_bind (run_lift (render_background self m)) run_yield
       | None => run_ret tt
       end)
      (fun _ =>
         run_bind (run_lift (place_content self))
                  (fun self' => render_content self' m)).

(** [Container.render]: the call only creates the generator. *)
Definition render (self : T) (m : option Matrix44) : result (Generator T) :=
  Ok (Suspended (render_body self m)).

End ContainerMethods.

(** [for child in children: child.place(x, y); <advance the cursor>] *)
Fixpoint place_each {C : Type} `{ContainerClass C}
         (advance : C -> Tuple2f -> result Tuple2f)
         (xy : Tuple2f) (children : list C) : result (list C) :=
  match children with
  | [] => Ok []
  | child :: rest =>
      child' <- place child (fst xy) (snd xy) ;;
      xy' <- advance child' xy ;;
      rest' <- place_each advance xy' rest ;;
      Ok (child' :: rest')
  end.

(** [for entity in self: yield from entity.render(m)] *)
Fixpoint render_each {C : Type} (render_ : C -> result (Generator C))
         (children : list C) : Run (list C) :=
  match children with
  | [] => run_ret []
  | child :: rest =>
      run_bind (yield_from (render_ child))
               (fun child' =>
                  run_bind (render_each render_ rest)
                           (fun rest' => run_ret (child' :: rest')))
  end.

(* ================================================================== *)
(** * Line *)

Record Line : Type := mkLine {
  Line_container : Container;
  Line_align : Z;
  Line_cells : list Cell
}.

(** The body of [Line.__init__]: the attributes it sets on the object it
    is given.  Only a subclass that implements [place_content] reaches it,
    through [super().__init__]. *)
Definition Line__init__ (width : Q) (align : Z) (margins : option (list Q))
           (render : option ContentRenderer) : Line :=
  {| Line_container := Container_init (Some width) None margins render;
     Line_align := align;
     Line_cells := [] |}.

(** [Line(width, align, margins, render)]: [Line] inherits the abstract
    method [place_content] of [Container], so creating an instance raises
    [TypeError] before [__init__] runs. *)
Definition Line_init (width : Q) (align : Z) (margins : option (list Q))
           (render : option ContentRenderer) : result Line :=
  Raise TypeError.

(** [Line] overrides [__iter__] only.  [place_content] is the method
    inherited from [Container], whose body is a docstring and does
    nothing.  (The method is abstract there, so the module never creates
    a line: only the records below describe one.) *)
#[export] Instance Line_class : ContainerClass Line := {
  container := Line_container;
  with_container := fun self c =>
    {| Line_container := c; Line_align := Line_align self;
       Line_cells := Line_cells self |};
  content_width := fun self =>
    Ok (Some (Container_content_width (Line_container self)));
  content_height := fun self =>
    Ok (Container_content_height (Line_container self));
  place_content := fun self => Ok self;
  render_content := fun self m =>
    run_bind (render_each (fun cell => Cell_render cell m) (Line_cells self))
             (fun cells' =>
                run_ret {| Line_container := Line_container self;
                           Line_align := Line_align self;
                           Line_cells := cells' |})
}.

(* ================================================================== *)
(** * Paragraph, FlowText *)

Record FlowText : Type := mkFlowText {
  FlowText_container : Container;
  FlowText_align : Z;
  _indent_first : Q;
  _indent_left : Q;
  _indent_right : Q;
  _line_spacing : Q;
  tab_stops : list Q;
  (* the raw and not distributed content *)
  FlowText_cells : list Cell;
  (* the final distributed content *)
  _lines : list Line
}.

Definition FlowText_init (width : Q) (align : Z) (indent : Q * Q * Q)
           (line_spacing : Q) (tab_stops : option (list Q))
           (margins : option (list Q)) (render : option ContentRenderer)
  : result FlowText :=
  if negb ((0 <=? align)%Z && (align <? 5)%Z) then
    Raise (ValueError "invalid paragraph alignment (0-4)")
  else
    let '(first, left_, right_) := indent in
    Ok {| FlowText_container := Container_init (Some width) None margins render;
          FlowText_align := align;
          _indent_first := first;
          _indent_left := left_;
          _indent_right := right_;
          _line_spacing := line_spacing;
          tab_stops := match tab_stops with
                       | Some (t :: ts) => t :: ts
                       | _ => []
                       end;
          FlowText_cells := [];
          _lines := [] |}.

Definition FlowText_with_lines (self : FlowText) (lines : list Line) : FlowText :=
  {| FlowText_container := FlowText_container self;
     FlowText_align := FlowText_align self;
     _indent_first := _indent_first self;
     _indent_left := _indent_left self;
     _indent_right := _indent_right self;
     _line_spacing := _line_spacing self;
     tab_stops := tab_stops self;
     FlowText_cells := FlowText_cells self;
     _lines := lines |}.

Definition FlowText_with_container (self : FlowText) (c : Container) : FlowText :=
  {| FlowText_container := c;
     FlowText_align := FlowText_align self;
     _indent_first := _indent_first self;
     _indent_left := _indent_left self;
     _indent_right := _indent_right self;
     _line_spacing := _line_spacing self;
     tab_stops := tab_stops self;
     FlowText_cells := FlowText_cells self;
     _lines := _lines self |}.

(** Cursor of [FlowText.place_content] and [Column.place_content]:
    [y -= child.total_height]. *)
Definition advance_down {C : Type} `{ContainerClass C}
           (child : C) (xy : Tuple2f) : result Tuple2f :=
  h <- total_height child ;;
  Ok (fst xy, snd xy - h).

(** [FlowText.place_content] *)
Definition FlowText_place_content (self : FlowText) : result FlowText :=
  '(x, y) <- Container_final_location (FlowText_container self) ;;
  l <- Container_left_margin (FlowText_container self) ;;
  let x := x + l in
  t <- Container_top_margin (FlowText_container self) ;;
  let y := y - t in
  lines <- place_each advance_down (x, y) (_lines self) ;;
  Ok (FlowText_with_lines self lines).

#[export] Instance FlowText_class : ContainerClass FlowText := {
  container := FlowText_container;
  with_container := FlowText_with_container;
  content_width := fun self =>
    Ok (Some (Container_content_width (FlowText_container self)));
  content_height := fun self =>
    Ok (Container_content_height (FlowText_container self));
  place_content := FlowText_place_content;
  render_content := fun self m =>
    run_bind (render_each (fun line : Line => render line m) (_lines self))
             (fun lines => run_ret (FlowText_with_lines self lines))
}.

(** [FlowText.distribute_content]: the body is [pass]; nothing is
    distributed and the call returns [None]. *)
Definition distribute_content (self : FlowText) (height : option Q)
  : FlowText * option (list Cell) :=
  (self, None).

Definition append_content (self : FlowText) (content : list Cell) : FlowText :=
  {| FlowText_container := FlowText_container self;
     FlowText_align := FlowText_align self;
     _indent_first := _indent_first self;
     _indent_left := _indent_left self;
     _indent_right := _indent_right self;
     _line_spacing := _line_spacing self;
     tab_stops := tab_stops self;
     FlowText_cells := FlowText_cells self ++ content;
     _lines := _lines self |}.

(** [BulletList] defines nothing and inherits the abstract methods of
    [Paragraph] and [Container]; it cannot be instantiated, so a paragraph
    object is a [FlowText]. *)
Definition Paragraph : Type := FlowText.

(* ================================================================== *)
(** * Attribute lookup on paragraph objects *)

Inductive PyClass : Type :=
| cBox | cRenderBox | cContainer | cParagraph | cFlowText | cBulletList.

(** Names bound in the body of each class. *)
Definition class_dict (c : PyClass) : list string :=
  match c with
  | cBox => ["total_width"; "total_height"]
  | cRenderBox => ["place"; "final_location"; "render"]
  | cContainer =>
      ["__init__"; "place"; "final_location"; "is_placed"; "__iter__";
       "top_margin"; "right_margin"; "bottom_margin"; "left_margin";
       "content_width"; "total_width"; "content_height"; "has_flex_height";
       "total_height"; "render"; "place_content"; "render_content";
       "render_background"]
  | cParagraph => ["distribute_content"]
  | cFlowText =>
      ["__init__"; "__iter__"; "place_content"; "distribute_content";
       "append_content"]
  | cBulletList => []
  end.

(** Method resolution order, up to [abc.ABC] and [object], which bind no
    name used by the engine. *)
Definition mro (c : PyClass) : list PyClass :=
  match c with
  | cBox => [cBox]
  | cRenderBox => [cRenderBox; cBox]
  | cContainer => [cContainer; cRenderBox; cBox]
  | cParagraph => [cParagraph; cContainer; cRenderBox; cBox]
  | cFlowText => [cFlowText; cParagraph; cContainer; cRenderBox; cBox]
  | cBulletList => [cBulletList; cParagraph; cContainer; cRenderBox; cBox]
  end.

(** Names bound on a [FlowText] instance by the [__init__] methods. *)
Definition FlowText_instance_dict : list string :=
  ["_final_x"; "_final_y"; "_content_width"; "_content_height"; "_margins";
   "_render"; "_align"; "_indent_first"; "_indent_left"; "_indent_right";
   "_line_spacing"; "tab_stops"; "_cells"; "_lines"].

Definition binds (names : list string) (name : string) : bool :=
  existsb (String.eqb name) names.

(** [hasattr(p, name)] for a paragraph [p]. *)
Definition Paragraph_hasattr (name : string) : bool :=
  binds FlowText_instance_dict name
  || existsb (fun c => binds (class_dict c) name) (mro cFlowText).

(** [p.freeze()]: the attribute is looked up first.  No class of the
    module binds [freeze], so no method body exists to run when the
    lookup succeeds. *)
Definition freeze (p : Paragraph) : result Paragraph :=
  if Paragraph_hasattr "freeze" then Ok p
  else Raise (AttributeError "freeze").

(* ================================================================== *)
(** * Column *)

Record Column : Type := mkColumn {
  Column_container : Container;
  _gutter : Q;
  _paragraphs : list Paragraph
}.

Definition Column_init (width : Q) (height : option Q) (gutter : Q)
           (margins : option (list Q)) (render : option ContentRenderer)
  : Column :=
  {| Column_container := Container_init (Some width) height margins render;
     _gutter := gutter;
     _paragraphs := [] |}.

Definition Column_with_paragraphs (self : Column) (ps : list Paragraph) : Column :=
  {| Column_container := Column_container self;
     _gutter := _gutter self;
     _paragraphs := ps |}.

Definition gutter (self : Column) : Q := _gutter self.

Definition max_content_height (self : Column) : option Q :=
  _content_height (Column_container self).

(** [sum(f(x) for x in xs)], starting from [acc]. *)
Fixpoint sum_ {A : Type} (f : A -> result Q) (xs : list A) (acc : Q) : result Q :=
  match xs with
  | [] => Ok acc
  | x :: xs' => v <- f x ;; sum_ f xs' (acc + v)
  end.

Definition used_content_height (self : Column) : result Q :=
  sum_ (fun p : Paragraph => total_height p) (_paragraphs self) 0.

Definition Column_content_height (self : Column) : result Q :=
  match max_content_height self with
  | None => used_content_height self
  | Some max_height => Ok max_height
  end.

Definition Column_place_content (self : Column) : result Column :=
  '(x, y) <- Container_final_location (Column_container self) ;;
  l <- Container_left_margin (Column_container self) ;;
  let x := x + l in
  t <- Container_top_margin (Column_container self) ;;
  let y := y - t in
  ps <- place_each advance_down (x, y) (_paragraphs self) ;;
  Ok (Column_with_paragraphs self ps).

#[export] Instance Column_class : ContainerClass Column := {
  container := Column_container;
  with_container := fun self c =>
    {| Column_container := c; _gutter := _gutter self;
       _paragraphs := _paragraphs self |};
  content_width := fun self =>
    Ok (Some (Container_content_width (Column_container self)));
  content_height := Column_content_height;
  place_content := Column_place_content;
  render_content := fun self m =>
    run_bind (render_each (fun p : Paragraph => render p m) (_paragraphs self))
             (fun ps => run_ret (Column_with_paragraphs self ps))
}.

Definition has_free_space (self : Column) : result bool :=
  match max_content_height self with
  | None => Ok true
  | Some max_height =>
      used <- used_content_height self ;;
      Ok (negb (Qle_bool max_height used))
  end.

Definition clone_empty (self : Column) : result Column :=
  let width := Container_content_width (Column_container self) in
  height <- Column_content_height self ;;
  let gutter_ := gutter self in
  t <- top_margin self ;;
  r <- right_margin self ;;
  b <- bottom_margin self ;;
  l <- left_margin self ;;
  Ok (Column_init width (Some height) gutter_ (Some [t; r; b; l])
                  (_render (Column_container self))).

(** [dst.extend(p.freeze() for p in paragraphs)]: the items are appended
    one by one; when [freeze] raises, the items appended so far stay. *)
Fixpoint extend_frozen (dst : list Paragraph) (paragraphs : list Paragraph)
  : list Paragraph * result unit :=
  match paragraphs with
  | [] => (dst, Ok tt)
  | p :: rest =>
      match freeze p with
      | Ok q => extend_frozen (dst ++ [q]) rest
      | Raise e => (dst, Raise e)
      end
  end.

(** [Column.append_paragraphs]: the column after the call, and the
    returned remainder or the exception. *)
Definition Column_append_paragraphs (self : Column) (paragraphs : list Paragraph)
  : Column * result (list Paragraph) :=
  let remainer : list Paragraph := [] in
  if has_flex_height self then
    let '(ps, r) := extend_frozen (_paragraphs self) paragraphs in
    (Column_with_paragraphs self ps,
     match r with
     | Ok _ => Ok remainer
     | Raise e => Raise e
     end)
  else (self, Ok remainer).

(* ================================================================== *)
(** * Layout *)

Record Layout : Type := mkLayout {
  Layout_container : Container;
  _reference_column_width : Q;
  (* the cursor starts at 0 and is only incremented or set to the index
     of an appended column *)
  _current_column : nat;
  _columns : list Column
}.

Definition Layout_init (width : Q) (height : option Q)
           (margins : option (list Q)) (render : option ContentRenderer)
  : Layout :=
  {| Layout_container := Container_init (Some width) height margins render;
     _reference_column_width := width;
     _current_column := 0;
     _columns := [] |}.

Definition Layout_with_columns (self : Layout) (cur : nat) (columns : list Column)
  : Layout :=
  {| Layout_container := Layout_container self;
     _reference_column_width := _reference_column_width self;
     _current_column := cur;
     _columns := columns |}.

(** [max(f(x) for x in xs)] *)
Fixpoint max_from {A : Type} (f : A -> result Q) (xs : list A) (best : Q)
  : result Q :=
  match xs with
  | [] => Ok best
  | x :: xs' =>
      v <- f x ;;
      max_from f xs' (if Qle_bool v best then best else v)
  end.

Definition max_ {A : Type} (f : A -> result Q) (xs : list A) : result Q :=
  match xs with
  | [] => Raise (ValueError "max() arg is an empty sequence")
  | x :: xs' => v <- f x ;; max_from f xs' v
  end.

(** [columns[-1]] *)
Definition last_column (columns : list Column) : result Column :=
  match columns with
  | [] => Raise IndexError
  | c :: _ => Ok (last columns c)
  end.

Definition _calculate_content_width (self : Layout) : result Q :=
  width <- sum_ (fun c : Column => w <- total_width c ;; Ok (w + gutter c))
                (removelast (_columns self)) 0 ;;
  match _columns self with
  | [] => Ok width
  | _ :: _ =>
      c <- last_column (_columns self) ;;
      w <- total_width c ;;
      Ok (width + w)
  end.

Definition Layout_content_width (self : Layout) : result (option Q) :=
  let width := _content_width (Layout_container self) in
  match _columns self with
  | _ :: _ => w <- _calculate_content_width self ;; Ok (Some w)
  | [] => Ok width
  end.

Definition _calculate_content_height (self : Layout) : result Q :=
  max_ (fun c : Column => total_height c) (_columns self).

Definition Layout_content_height (self : Layout) : result Q :=
  let height := _content_height (Layout_container self) in
  match _columns self with
  | _ :: _ => _calculate_content_height self
  | [] => match height with
          | None => Ok 0
          | Some h => Ok h
          end
  end.

(** Cursor of [Layout.place_content]:
    [x += column.total_width + column.gutter]. *)
Definition advance_right (column : Column) (xy : Tuple2f) : result Tuple2f :=
  w <- total_width column ;;
  Ok (fst xy + (w + gutter column), snd xy).

Definition Layout_place_content (self : Layout) : result Layout :=
  '(x, y) <- Container_final_location (Layout_container self) ;;
  l <- Container_left_margin (Layout_container self) ;;
  let x := x + l in
  t <- Container_top_margin (Layout_container self) ;;
  let y := y - t in
  columns <- place_each advance_right (x, y) (_columns self) ;;
  Ok (Layout_with_columns self (_current_column self) columns).

#[export] Instance Layout_class : ContainerClass Layout := {
  container := Layout_container;
  with_container := fun self c =>
    {| Layout_container := c;
       _reference_column_width := _reference_column_width self;
       _current_column := _current_column self;
       _columns := _columns self |};
  content_width := Layout_content_width;
  content_height := Layout_content_height;
  place_content := Layout_place_content;
  render_content := fun self m =>
    run_bind (render_each (fun c : Column => render c m) (_columns self))
             (fun cs => run_ret (Layout_with_columns self (_current_column self) cs))
}.

(** [Layout.place(x, y, align)] *)
Definition Layout_place (self : Layout) (x y : Q) (align : Z) : result Layout :=
  width <- total_width self ;;
  height <- total_height self ;;
  let '(left_, top_) := insert_location align width height in
  place self (x + left_) (y + top_).

(** [Layout.add_column]; [not width] holds for [None] and for zero. *)
Definition add_column (self : Layout) (width : option Q) (height : option Q)
           (gutter_ : Q) (margins : option (list Q))
           (render_ : option ContentRenderer) : Layout * Column :=
  let width := match width with
               | None => _reference_column_width self
               | Some w => if Qeq_bool w 0 then _reference_column_width self
                           else w
               end in
  let column := Column_init width height gutter_ margins render_ in
  (Layout_with_columns self (_current_column self) (_columns self ++ [column]),
   column).

(** [Layout._new_column]: the layout after the call and the index of the
    new column in [_columns] (the returned object is that list element),
    or the exception. *)
Definition _new_column (self : Layout) : Layout * result nat :=
  if (List.length (_columns self) =? 0)%nat then
    (self, Raise (ValueError "no column exist"))
  else
    match (c <- last_column (_columns self) ;; clone_empty c) with
    | Ok empty =>
        (Layout_with_columns self (_current_column self)
                             (_columns self ++ [empty]),
         Ok (List.length (_columns self)))
    | Raise e => (self, Raise e)
    end.

(** [columns[i] = column], for the column object at index [i] that a
    method call has modified in place. *)
Fixpoint update_nth {A : Type} (i : nat) (x : A) (l : list A) : list A :=
  match l, i with
  | [], _ => []
  | _ :: t, O => x :: t
  | a :: t, S i' => a :: update_nth i' x t
  end.

(** How a loop of [Layout.append_paragraphs] ends. *)
Inductive loop_exit : Type :=
| Returned                                 (* [return] inside the loop *)
| Exhausted (remainer : list Paragraph)    (* the loop condition is false *)
| Raised (e : exn).

(** 1. fill existing columns.  Each iteration increments the cursor, so
    [fuel] bounds the iterations; [None] means the bound was too small. *)
Fixpoint fill_existing (fuel : nat) (self : Layout) (remainer : list Paragraph)
  : option (Layout * loop_exit) :=
  if (_current_column self <? List.length (_columns self))%nat then
    match fuel with
    | O => None
    | S fuel' =>
        match nth_error (_columns self) (_current_column self) with
        | None => Some (self, Raised IndexError)
        | Some column =>
            let '(column', r) := Column_append_paragraphs column remainer in
            let self' := Layout_with_columns self (_current_column self)
                           (update_nth (_current_column self) column' (_columns self)) in
            match r with
            | Raise e => Some (self', Raised e)
            | Ok remainer' =>
                if (List.length remainer' =? 0)%nat then Some (self', Returned)
                else fill_existing fuel'
                       (Layout_with_columns self' (S (_current_column self'))
                                            (_columns self'))
                       remainer'
            end
        end
    end
  else Some (self, Exhausted remainer).

(** 2. create additional columns. *)
Fixpoint create_columns (fuel : nat) (self : Layout) (remainer : list Paragraph)
  : option (Layout * result unit) :=
  match remainer with
  | [] => Some (self, Ok tt)
  | _ :: _ =>
      match fuel with
      | O => None
      | S fuel' =>
          match _new_column self with
          | (self1, Raise e) => Some (self1, Raise e)
          | (self1, Ok i) =>
              let cur := (List.length (_columns self1) - 1)%nat in
              match nth_error (_columns self1) i with
              | None => Some (self1, Raise IndexError)
              | Some column =>
                  let '(column', r) := Column_append_paragraphs column remainer in
                  let self2 := Layout_with_columns self1 cur
                                 (update_nth i column' (_columns self1)) in
                  match r with
                  | Raise e => Some (self2, Raise e)
                  | Ok remainer' =>
                      if (100 <? _current_column self2)%nat then
                        Some (self2,
                              Raise (ValueError "Internal error - not enough space!?"))
                      else create_columns fuel' self2 remainer'
                  end
              end
          end
      end
  end.

(** [Layout.append_paragraphs]: the first loop runs at most once per
    existing column; the second stops or raises once the cursor passes
    100, so 102 rounds are enough. *)
Definition Layout_append_paragraphs (self : Layout) (paragraphs : list Paragraph)
  : option (Layout * result unit) :=
  let remainer := paragraphs in
  match fill_existing (List.length (_columns self)) self remainer with
  | None => None
  | Some (self1, Returned) => Some (self1, Ok tt)
  | Some (self1, Raised e) => Some (self1, Raise e)
  | Some (self1, Exhausted remainer1) => create_columns 102 self1 remainer1
  end.

(* ================================================================== *)
(** * Predicates of the specifications *)

Import Normalize.

(** The class of the last cell of [l], or [prev] when [l] is empty: the
    value of the loop variable [prev] after [l] has been appended. *)
Definition last_type (prev : option CellType) (l : list Cell) : option CellType :=
  fold_left (fun _ c => Some (type c)) l prev.

Definition is_soft_hyphen (cell : Cell) : bool :=
  is_ (Some (type cell)) TSoftHyphen.

(** [cell] is appended by the loop when the last appended class is
    [prev]. *)
Definition admits (prev : option CellType) (cell : Cell) : bool :=
  if is_content cell then negb (in_ prev _content)
  else if is_soft_hyphen cell then in_ prev _content
  else true.

(** A soft hyphen is followed by a content cell; [pending] tells whether
    a soft hyphen may stand at the very end. *)
Definition followed (pending : bool) (cell : Cell) (rest : list Cell) : bool :=
  if is_soft_hyphen cell then
    match rest with
    | d :: _ => is_content d
    | [] => pending
    end
  else true.

(** Every cell of the list is one the loop keeps. *)
Fixpoint kept (pending : bool) (prev : option CellType) (l : list Cell) : bool :=
  match l with
  | [] => true
  | c :: t => admits prev c && followed pending c t && kept pending (Some (type c)) t
  end.

(** Well-formed containers: the margins are resolved. *)
Definition margins_resolved (c : Container) : bool :=
  match _margins c with
  | Some _ => true
  | None => false
  end.

Definition wf_Line (l : Line) : bool := margins_resolved (Line_container l).

Definition wf_FlowText (p : FlowText) : bool :=
  margins_resolved (FlowText_container p) && forallb wf_Line (_lines p).

Definition wf_Column (c : Column) : bool :=
  margins_resolved (Column_container c) && forallb wf_FlowText (_paragraphs c).

Definition wf_Layout (l : Layout) : bool :=
  margins_resolved (Layout_container l)
  && forallb wf_Column (_columns l)
  && match _columns l, _content_width (Layout_container l) with
     | [], None => false
     | _, _ => true
     end.

Definition Tuple2f_eq (a b : Tuple2f) : Prop :=
  fst a == fst b /\ snd a == snd b.

(** [FlowText(width)], all other arguments at their defaults. *)
Definition FlowText_default (width : Q) : FlowText :=
  {| FlowText_container := Container_init (Some width) None None None;
     FlowText_align := 0;
     _indent_first := 0;
     _indent_left := 0;
     _indent_right := 0;
     _line_spacing := 1;
     tab_stops := [];
     FlowText_cells := [];
     _lines := [] |}.

(** Both sizes are numbers. *)
Definition sized {T : Type} `{ContainerClass T} (self : T) : Prop :=
  (exists w, total_width self = Ok w) /\ (exists h, total_height self = Ok h).

(** The call [r] of a [place] method returns, and afterwards
    [final_location()] returns [(x, y)]. *)
Definition placed_at {T : Type} `{ContainerClass T}
           (r : result T) (x y : Q) : Prop :=
  exists self', r = Ok self' /\ final_location self' = Ok (x, y).

(** Whenever the call [r] of a [place] method returns,
    [final_location()] then returns [(x, y)]. *)
Definition anchored {T : Type} `{ContainerClass T}
           (r : result T) (x y : Q) : Prop :=
  forall self', r = Ok self' -> final_location self' = Ok (x, y).

(** The offset of anchor [align] in the 3 x 3 grid, numbered row by row:
    column [(align - 1) mod 3] moves left by half widths, row
    [(align - 1) / 3] moves by half heights. *)
Definition grid_offset (align : Z) (width height : Q) : Tuple2f :=
  (- (inject_Z ((align - 1) mod 3) * (width / 2)),
   inject_Z ((align - 1) / 3) * (height / 2)).

(** What the specification asks of a container that is not placed: both
    [final_location()] and the call [render(m)] fail. *)
Definition fails_before_place {T : Type} `{ContainerClass T}
           (self : T) (m : option Matrix44) : Prop :=
  (exists e, final_location self = Raise e)
  /\ (exists e, render self m = Raise e).

(** What the code does: [final_location()] raises; the call of [render]
    returns a generator, and advancing or draining it raises. *)
Definition fails_when_advanced {T : Type} `{ContainerClass T}
           (self : T) (m : option Matrix44) : Prop :=
  final_location self = Raise (ValueError "Container is not placed.")
  /\ exists g,
      render self m = Ok g
      /\ next g = Raise (ValueError "Layout has to be placed before rendering")
      /\ list_ g = Raise (ValueError "Layout has to be placed before rendering").

(* ================================================================== *)
(** * Further methods and predicates *)

(** [NonBreakingSpace.to_space]; no other cell class has the method. *)
Definition to_space (cell : Cell) : result Cell :=
  match cell with
  | NonBreakingSpace g => Ok (Space (Glue_init (_width g) (_min_width g)))
  | _ => Raise (AttributeError "to_space")
  end.

(** [l1] is [l2] with some elements left out, in the same order. *)
Inductive Subseq {A : Type} : list A -> list A -> Prop :=
| Subseq_nil : Subseq [] []
| Subseq_take (x : A) (l1 l2 : list A) :
    Subseq l1 l2 -> Subseq (x :: l1) (x :: l2)
| Subseq_skip (x : A) (l1 l2 : list A) :
    Subseq l1 l2 -> Subseq l1 (x :: l2).

(** The object with every final location forgotten: what is left is
    what the constructors and the content have set. *)
Definition unplace (c : Container) : Container :=
  {| _final_x := None; _final_y := None;
     _content_width := _content_width c;
     _content_height := _content_height c;
     _margins := _margins c; _render := _render c |}.

Definition Line_unplaced (self : Line) : Line :=
  {| Line_container := unplace (Line_container self);
     Line_align := Line_align self;
     Line_cells := Line_cells self |}.

Definition FlowText_unplaced (self : FlowText) : FlowText :=
  FlowText_with_lines
    (FlowText_with_container self (unplace (FlowText_container self)))
    (map Line_unplaced (_lines self)).

Definition Column_unplaced (self : Column) : Column :=
  {| Column_container := unplace (Column_container self);
     _gutter := _gutter self;
     _paragraphs := map FlowText_unplaced (_paragraphs self) |}.

Definition Layout_unplaced (self : Layout) : Layout :=
  {| Layout_container := unplace (Layout_container self);
     _reference_column_width := _reference_column_width self;
     _current_column := _current_column self;
     _columns := map Column_unplaced (_columns self) |}.

(** The children are placed one after the other: the first at [xy], the
    next where [advance] moves the cursor. *)
Fixpoint stacked {C : Type} `{ContainerClass C}
         (advance : C -> Tuple2f -> result Tuple2f)
         (xy : Tuple2f) (children : list C) : Prop :=
  match children with
  | [] => True
  | child :: rest =>
      final_location child = Ok xy
      /\ exists xy', advance child xy = Ok xy' /\ stacked advance xy' rest
  end.

(** The first value the generator of [render] yields for a placed
    container with a renderer and with sizes: the call of the renderer
    for the background, over the bounds of the container, margins
    included. *)
Definition draws_background_first {T : Type} `{ContainerClass T}
           (self : T) (m : option Matrix44) : Prop :=
  forall r x y w h,
    final_location self = Ok (x, y) ->
    _render (container self) = Some r ->
    total_width self = Ok w ->
    total_height self = Ok h ->
    exists g,
      render self m = Ok g
      /\ next g = Ok (Some (Some {| rc_renderer := r;
                                    rc_left := x; rc_bottom := y - h;
                                    rc_right := x + w; rc_top := y;
                                    rc_m := m |})).

Definition not_soft_hyphen (cell : Cell) : bool := negb (is_soft_hyphen cell).

(* ================================================================== *)
(** * Sizes in binary64 arithmetic

    The size properties of [Container] and of its four subclasses once
    more, over IEEE 754 binary64 numbers with [+] rounding to nearest,
    ties to even, as Python's [float] adds: a sum of three numbers
    depends on the order of its two additions.  An [int] that the source
    mixes into such a sum (the [0] of [resolve_margins(None)], of
    [content_width], of [content_height] and of [sum]) stands for the
    float of the same value.  The records keep the state of
    [Container.__init__], the gutter and the child containers; the other
    attributes, which no size property reads, are left out. *)

Module Float64.

Definition Tuple4f : Type := (float * float * float * float)%type.

Definition resolve_margins (margins : option (list float)) : option Tuple4f :=
  match margins with
  | None => Some (0, 0, 0, 0)%float
  | Some margins =>
      let count := List.length margins in
      let item (i : nat) := nth i margins 0%float in
      if (count =? 4)%nat then Some (item 0%nat, item 1%nat, item 2%nat, item 3%nat)
      else if (count =? 3)%nat then Some (item 0%nat, item 1%nat, item 2%nat, item 1%nat)
      else if (count =? 2)%nat then Some (item 0%nat, item 1%nat, item 0%nat, item 1%nat)
      else if (count =? 1)%nat then Some (item 0%nat, item 0%nat, item 0%nat, item 0%nat)
      else None
  end.

Record Container : Type := mkContainer {
  _final_x : option float;
  _final_y : option float;
  _content_width : option float;
  _content_height : option float;
  _margins : option Tuple4f;
  _render : option ContentRenderer
}.

Definition Container_init (width : option float) (height : option float)
           (margins : option (list float)) (render : option ContentRenderer)
  : Container :=
  {| _final_x := None; _final_y := None;
     _content_width := width; _content_height := height;
     _margins := resolve_margins margins;
     _render := render |}.

(** [self._margins[i]] *)
Definition subscript (margins : option Tuple4f) (i : nat) : result float :=
  match margins with
  | None => Raise TypeError
  | Some (t, r, b, l) =>
      match i with
      | 0%nat => Ok t
      | 1%nat => Ok r
      | 2%nat => Ok b
      | 3%nat => Ok l
      | _ => Raise IndexError
      end
  end.

(** [a + b] where [a] may be [None]. *)
Definition add (a : option float) (b : float) : result float :=
  match a with
  | Some a => Ok (a + b)%float
  | None => Raise TypeError
  end.

Definition Container_content_width (c : Container) : float :=
  match _content_width c with
  | None => 0%float
  | Some w => w
  end.

Definition Container_content_height (c : Container) : float :=
  match _content_height c with
  | None => 0%float
  | Some h => h
  end.

(** The size properties a subclass of [Container] inherits or
    overrides. *)
Class ContainerClass (T : Type) : Type := {
  container : T -> Container;
  content_width : T -> result (option float);
  content_height : T -> result float
}.

Section ContainerMethods.
Context {T : Type} `{ContainerClass T}.

Definition top_margin (self : T) : result float :=
  subscript (_margins (container self)) 0.
Definition right_margin (self : T) : result float :=
  subscript (_margins (container self)) 1.
Definition bottom_margin (self : T) : result float :=
  subscript (_margins (container self)) 2.
Definition left_margin (self : T) : result float :=
  subscript (_margins (container self)) 3.

(** [self.content_width + self.right_margin + self.left_margin] *)
Definition total_width (self : T) : result float :=
  cw <- content_width self ;;
  r <- right_margin self ;;
  s <- add cw r ;;
  l <- left_margin self ;;
  Ok (s + l)%float.

(** [self.content_height + self.top_margin + self.bottom_margin] *)
Definition total_height (self : T) : result float :=
  ch <- content_height self ;;
  t <- top_margin self ;;
  b <- bottom_margin self ;;
  Ok (ch + t + b)%float.

End ContainerMethods.

Record Line : Type := mkLine {
  Line_container : Container
}.

#[global] Instance Line_class : ContainerClass Line := {
  container := Line_container;
  content_width := fun self =>
    Ok (Some (Container_content_width (Line_container self)));
  content_height := fun self =>
    Ok (Container_content_height (Line_container self))
}.

Record FlowText : Type := mkFlowText {
  FlowText_container : Container;
  _lines : list Line
}.

#[global] Instance FlowText_class : ContainerClass FlowText := {
  container := FlowText_container;
  content_width := fun self =>
    Ok (Some (Container_content_width (FlowText_container self)));
  content_height := fun self =>
    Ok (Container_content_height (FlowText_container self))
}.

Record Column : Type := mkColumn {
  Column_container : Container;
  _gutter : float;
  _paragraphs : list FlowText
}.

Definition Column_init (width : float) (height : option float) (gutter : float)
           (margins : option (list float)) (render : option ContentRenderer)
  : Column :=
  {| Column_container := Container_init (Some width) height margins render;
     _gutter := gutter;
     _paragraphs := [] |}.

Definition gutter (self : Column) : float := _gutter self.

(** [sum(f(x) for x in xs)], starting from [acc]. *)
Fixpoint sum_ {A : Type} (f : A -> result float) (xs : list A) (acc : float)
  : result float :=
  match xs with
  | [] => Ok acc
  | x :: xs' => v <- f x ;; sum_ f xs' (acc + v)%float
  end.

Definition used_content_height (self : Column) : result float :=
  sum_ (fun p : FlowText => total_height p) (_paragraphs self) 0%float.

Definition Column_content_height (self : Column) : result float :=
  match _content_height (Column_container self) with
  | None => used_content_height self
  | Some max_height => Ok max_height
  end.

#[global] Instance Column_class : ContainerClass Column := {
  container := Column_container;
  content_width := fun self =>
    Ok (Some (Container_content_width (Column_container self)));
  content_height := Column_content_height
}.

Record Layout : Type := mkLayout {
  Layout_container : Container;
  _columns : list Column
}.

(** [max(f(x) for x in xs)]: a later item replaces the best one when it
    is greater. *)
Fixpoint max_from {A : Type} (f : A -> result float) (xs : list A) (best : float)
  : result float :=
  match xs with
  | [] => Ok best
  | x :: xs' =>
      v <- f x ;;
      max_from f xs' (if (best <? v)%float then v else best)
  end.

Definition max_ {A : Type} (f : A -> result float) (xs : list A) : result float :=
  match xs with
  | [] => Raise (ValueError "max() arg is an empty sequence")
  | x :: xs' => v <- f x ;; max_from f xs' v
  end.

Definition _calculate_content_width (self : Layout) : result float :=
  width <- sum_ (fun c : Column => w <- total_width c ;; Ok (w + gutter c)%float)
                (removelast (_columns self)) 0%float ;;
  match _columns self with
  | [] => Ok width
  | c :: _ =>
      w <- total_width (last (_columns self) c) ;;
      Ok (width + w)%float
  end.

Definition Layout_content_width (self : Layout) : result (option float) :=
  let width := _content_width (Layout_container self) in
  match _columns self with
  | _ :: _ => w <- _calculate_content_width self ;; Ok (Some w)
  | [] => Ok width
  end.

Definition _calculate_content_height (self : Layout) : result float :=
  max_ (fun c : Column => total_height c) (_columns self).

Definition Layout_content_height (self : Layout) : result float :=
  let height := _content_height (Layout_container self) in
  match _columns self with
  | _ :: _ => _calculate_content_height self
  | [] => match height with
          | None => Ok 0%float
          | Some h => Ok h
          end
  end.

#[global] Instance Layout_class : ContainerClass Layout := {
  container := Layout_container;
  content_width := Layout_content_width;
  content_height := Layout_content_height
}.




End Float64.

(* ================================================================== *)
(** * Properties *)

Unset Implicit Arguments.

Lemma bind_Ok_inv {A B : Type} (r : result A) (k : A -> result B) (b : B) :
  bind r k = Ok b -> exists a, r = Ok a /\ k a = Ok b.
Proof. destruct r as [a|e]; simpl; intros H; [eauto | discriminate]. Qed.

(** Splits a hypothesis [x <- r ;; k = Ok b] into its steps. *)
Ltac bind_steps H :=
  repeat match type of H with
         | bind _ _ = Ok _ =>
             let a := fresh "a" in
             let Ha := fresh "Hstep" in
             apply bind_Ok_inv in H as (a & Ha & H)
         end.

(** ** Cell classes *)

Lemma content_not_soft_hyphen (prev : option CellType) :
  in_ prev _content = true -> is_ prev TSoftHyphen = false.
Proof. destruct prev as [[]|]; simpl; congruence. Qed.

Lemma content_not_glue (prev : option CellType) :
  in_ prev _content = true -> in_ prev _glue = false.
Proof. destruct prev as [[]|]; simpl; congruence. Qed.

Lemma soft_hyphen_is_glue (prev : option CellType) :
  is_ prev TSoftHyphen = true -> in_ prev _glue = true.
Proof. destruct prev as [[]|]; simpl; congruence. Qed.

Lemma last_type_snoc (prev : option CellType) (l : list Cell) (c : Cell) :
  last_type prev (l ++ [c]) = Some (type c).
Proof. unfold last_type. rewrite fold_left_app. reflexivity. Qed.

Lemma last_cell_snoc (l : list Cell) (c : Cell) :
  last_cell (l ++ [c]) = Some c.
Proof.
  unfold last_cell. destruct (l ++ [c]) eqn:E.
  - destruct l; discriminate.
  - rewrite <- E. now rewrite last_last.
Qed.

Lemma peek_next (done : list Cell) (cell : Cell) (todo : list Cell) :
  peek (done ++ cell :: todo) (List.length done)
  = match todo with
    | d :: _ => Some (type d)
    | [] => None
    end.
Proof.
  unfold peek.
  rewrite nth_error_app2 by lia.
  replace (S (List.length done) - List.length done)%nat with 1%nat by lia.
  destruct todo; reflexivity.
Qed.

(** ** The loop of normalize_cells *)

(** Visiting a prefix of the input either raises or leads to a loop
    state at the start of the rest. *)
Lemma loop_prefix (l1 rest cells : list Cell) :
  forall index prev content,
    loop cells index (l1 ++ rest) prev content = Raise no_glue
    \/ exists prev' content',
        loop cells index (l1 ++ rest) prev content
        = loop cells (index + List.length l1) rest prev' content'.
Proof.
  induction l1 as [|c l1 IH]; intros index prev content.
  - right. exists prev, content. simpl. now rewrite Nat.add_0_r.
  - simpl List.length. replace (index + S (List.length l1))%nat
      with (S index + List.length l1)%nat by lia.
    cbn beta iota zeta delta [app loop].
    repeat match goal with
           | |- context [if ?b then _ else _] => destruct b
           end; auto.
Qed.

Lemma loop_adjacent_content (a b : Cell) (l2 cells : list Cell) index prev content :
  is_content a = true -> is_content b = true ->
  loop cells index (a :: b :: l2) prev content = Raise no_glue.
Proof.
  unfold is_content. intros Ha Hb. cbn beta iota zeta delta [loop].
  rewrite Ha. destruct (in_ prev _content); [reflexivity|].
  now rewrite Hb.
Qed.

(** ** Lists the loop keeps unchanged *)

Lemma kept_snoc (prev : option CellType) (l : list Cell) (c : Cell) :
  kept true prev l = true ->
  admits (last_type prev l) c = true ->
  (is_ (last_type prev l) TSoftHyphen = true -> is_content c = true) ->
  kept true prev (l ++ [c]) = true.
Proof.
  revert prev. induction l as [|a t IH]; intros prev Hk Ha Hs.
  - simpl in *. rewrite Ha. unfold followed. now destruct (is_soft_hyphen c).
  - cbn [app kept] in *.
    apply andb_true_iff in Hk as [Hk Ht].
    apply andb_true_iff in Hk as [Hadm Hfol].
    rewrite Hadm, (IH (Some (type a)) Ht Ha Hs), andb_true_r. simpl.
    destruct t as [|d t']; [|exact Hfol].
    unfold followed in *. simpl.
    destruct (is_soft_hyphen a) eqn:E; [|reflexivity].
    apply Hs. exact E.
Qed.

Lemma kept_prefix (pending : bool) (l1 l2 : list Cell) :
  forall prev, kept pending prev (l1 ++ l2) = true -> kept true prev l1 = true.
Proof.
  induction l1 as [|a t IH]; intros prev Hk; [reflexivity|].
  cbn [app kept] in *.
  apply andb_true_iff in Hk as [Hk Ht].
  apply andb_true_iff in Hk as [Hadm Hfol].
  rewrite Hadm, (IH _ Ht), andb_true_r. simpl.
  unfold followed in *. destruct (is_soft_hyphen a); [|reflexivity].
  destruct t; [reflexivity | exact Hfol].
Qed.

Lemma kept_not_pending (l : list Cell) :
  forall prev,
    kept true prev l = true ->
    (l <> [] -> is_ (last_type prev l) TSoftHyphen = false) ->
    kept false prev l = true.
Proof.
  induction l as [|a t IH]; intros prev Hk Hl; [reflexivity|].
  cbn [kept] in *.
  apply andb_true_iff in Hk as [Hk Ht].
  apply andb_true_iff in Hk as [Hadm Hfol].
  rewrite Hadm. simpl.
  apply andb_true_iff. split.
  - unfold followed in *. destruct (is_soft_hyphen a) eqn:E; [|reflexivity].
    destruct t as [|d t']; [|exact Hfol].
    assert (H0 := Hl ltac:(discriminate)).
    unfold last_type in H0. simpl in H0.
    unfold is_soft_hyphen in E. simpl in E. congruence.
  - apply IH; [exact Ht|].
    intros Hne. apply Hl. discriminate.
Qed.

Lemma kept_no_adjacent_content (pending : bool) (l : list Cell) :
  forall prev, kept pending prev l = true -> no_adjacent_content l = true.
Proof.
  induction l as [|a t IH]; intros prev Hk; [reflexivity|].
  cbn [kept] in Hk.
  apply andb_true_iff in Hk as [_ Ht].
  cbn [no_adjacent_content]. destruct t as [|b t']; [reflexivity|].
  rewrite (IH _ Ht), andb_true_r.
  cbn [kept] in Ht.
  apply andb_true_iff in Ht as [Ht _].
  apply andb_true_iff in Ht as [Hadm _].
  unfold admits in Hadm. unfold is_content in *.
  destruct (in_ (Some (type b)) _content); [|now rewrite andb_false_r].
  apply negb_true_iff in Hadm. now rewrite Hadm.
Qed.

(** The loop returns its input when every cell is one it keeps. *)
Lemma loop_kept (l : list Cell) :
  forall done prev content,
    kept false prev l = true ->
    loop (done ++ l) (List.length done) l prev content = Ok (content ++ l).
Proof.
  induction l as [|c t IH]; intros done prev content Hk.
  - simpl. now rewrite app_nil_r.
  - cbn [kept] in Hk.
    apply andb_true_iff in Hk as [Hk Ht].
    apply andb_true_iff in Hk as [Hadm Hfol].
    specialize (IH (done ++ [c]) (Some (type c)) (content ++ [c]) Ht).
    rewrite <- !app_assoc, length_app in IH. simpl in IH.
    rewrite Nat.add_1_r in IH.
    cbn beta iota zeta delta [loop].
    unfold admits, followed, is_soft_hyphen, is_content in Hadm, Hfol.
    destruct (in_ (Some (type c)) _content) eqn:Ec.
    + apply negb_true_iff in Hadm. rewrite Hadm. exact IH.
    + destruct (is_ (Some (type c)) TSoftHyphen) eqn:Es; [|exact IH].
      rewrite (content_not_soft_hyphen _ Hadm), Hadm, peek_next.
      destruct t as [|d t']; [discriminate|].
      unfold is_content in Hfol. rewrite Hfol. exact IH.
Qed.

(** Invariant of the loop: what has been appended is kept by a second
    pass, and a soft hyphen is appended only in front of a content cell. *)
Lemma loop_invariant (todo : list Cell) :
  forall done prev content out,
    prev = last_type None content ->
    kept true None content = true ->
    (is_ prev TSoftHyphen = true ->
     exists d rest, todo = d :: rest /\ is_content d = true) ->
    loop (done ++ todo) (List.length done) todo prev content = Ok out ->
    kept true None out = true
    /\ is_ (last_type None out) TSoftHyphen = false.
Proof.
  induction todo as [|c t IH]; intros done prev content out Hp Hk Hs Hl.
  - simpl in Hl. injection Hl as <-. split; [exact Hk|].
    rewrite <- Hp. destruct (is_ prev TSoftHyphen) eqn:E; [|reflexivity].
    destruct (Hs eq_refl) as (d & rest & Habs & _). discriminate.
  - assert (Hnext : forall prev' content',
               prev' = last_type None content' ->
               kept true None content' = true ->
               (is_ prev' TSoftHyphen = true ->
                exists d rest, t = d :: rest /\ is_content d = true) ->
               loop (done ++ c :: t) (S (List.length done)) t prev' content' = Ok out ->
               kept true None out = true
               /\ is_ (last_type None out) TSoftHyphen = false).
    { intros prev' content' Hp' Hk' Hs' Hl'.
      apply (IH (done ++ [c]) prev' content' out Hp' Hk' Hs').
      rewrite <- app_assoc, length_app. simpl. rewrite Nat.add_1_r. exact Hl'. }
    assert (Hc : is_ prev TSoftHyphen = true -> is_content c = true).
    { intros E. destruct (Hs E) as (d & rest & Heq & Hd).
      injection Heq as -> ->. exact Hd. }
    cbn beta iota zeta delta [loop] in Hl.
    destruct (in_ (Some (type c)) _content) eqn:Ec.
    + destruct (in_ prev _content) eqn:Ep; [discriminate|].
      apply (Hnext _ _ (eq_sym (last_type_snoc None content c))); [| |exact Hl].
      * apply kept_snoc; [exact Hk| |now rewrite <- Hp].
        unfold admits, is_content. now rewrite Ec, <- Hp, Ep.
      * intros E. rewrite (content_not_soft_hyphen _ Ec) in E. discriminate.
    + assert (Hnp : is_ prev TSoftHyphen = false).
      { destruct (is_ prev TSoftHyphen) eqn:E; [|reflexivity].
        specialize (Hc eq_refl). unfold is_content in Hc. congruence. }
      rewrite Hnp in Hl.
      destruct (is_ (Some (type c)) TSoftHyphen) eqn:Es.
      * destruct (in_ prev _content) eqn:Ep; simpl in Hl.
        -- rewrite peek_next in Hl.
           destruct (in_ match t with d :: _ => Some (type d) | [] => None end
                         _content) eqn:Et; simpl in Hl.
           ++ apply (Hnext _ _ (eq_sym (last_type_snoc None content c))); [| |exact Hl].
              ** apply kept_snoc; [exact Hk| |].
                 --- unfold admits, is_content, is_soft_hyphen.
                     now rewrite Ec, Es, <- Hp, Ep.
                 --- rewrite <- Hp, Hnp. discriminate.
              ** intros _. destruct t as [|d rest]; [discriminate|].
                 exists d, rest. split; [reflexivity | exact Et].
           ++ apply (Hnext _ _ Hp Hk); [|exact Hl].
              rewrite Hnp. discriminate.
        -- apply (Hnext _ _ Hp Hk); [|exact Hl].
           rewrite Hnp. discriminate.
      * apply (Hnext _ _ (eq_sym (last_type_snoc None content c))); [| |exact Hl].
        -- apply kept_snoc; [exact Hk| |].
           ++ unfold admits, is_content, is_soft_hyphen. now rewrite Ec, Es.
           ++ rewrite <- Hp, Hnp. discriminate.
        -- rewrite Es. discriminate.
Qed.

(** ** Removal of the pending glue *)

Lemma last_cell_last_type (l : list Cell) (c : Cell) :
  last_cell l = Some c -> last_type None l = Some (type c).
Proof.
  destruct l as [|a t] using rev_ind; [discriminate|].
  rewrite last_cell_snoc, last_type_snoc. now intros [= ->].
Qed.

Lemma pop_loop_spec (fuel : nat) :
  forall content,
    (List.length content <= fuel)%nat ->
    in_ (last_type None (pop_loop fuel content)) _glue = false
    /\ exists popped, content = pop_loop fuel content ++ popped.
Proof.
  induction fuel as [|fuel IH]; intros content Hlen.
  - destruct content; [|simpl in Hlen; lia].
    split; [reflexivity | now exists []].
  - destruct content as [|c content'] using rev_ind.
    + split; [reflexivity | now exists []].
    + clear IHcontent'. cbn [pop_loop].
      rewrite last_cell_snoc, removelast_last.
      destruct (in_ (Some (type c)) _glue) eqn:E.
      * rewrite length_app in Hlen. simpl in Hlen.
        destruct (IH content' ltac:(lia)) as [Hg [popped Hp]].
        split; [exact Hg|].
        exists (popped ++ [c]). now rewrite app_assoc, <- Hp.
      * split; [now rewrite last_type_snoc | exists []; now rewrite app_nil_r].
Qed.

Lemma pop_loop_fixed (fuel : nat) (content : list Cell) :
  in_ (last_type None content) _glue = false ->
  pop_loop fuel content = content.
Proof.
  intros Hg. destruct fuel as [|fuel]; [reflexivity|].
  cbn [pop_loop]. destruct (last_cell content) as [c|] eqn:E; [|reflexivity].
  rewrite (last_cell_last_type _ _ E) in Hg. now rewrite Hg.
Qed.

(** What a successful normalisation returns: a list that a second pass
    keeps, cell by cell, and that does not end in glue. *)
Lemma normalize_cells_output (cells out : list Cell) :
  normalize_cells cells = Ok out ->
  kept false None out = true /\ in_ (last_type None out) _glue = false.
Proof.
  unfold normalize_cells. intros H.
  apply bind_Ok_inv in H as (content & Hloop & Hout).
  injection Hout as <-.
  destruct (@loop_invariant cells [] None [] content
              eq_refl eq_refl ltac:(discriminate) Hloop) as [Hk _].
  destruct (@pop_loop_spec (List.length content) content (Nat.le_refl _))
    as [Hg [popped Hp]].
  unfold remove_pending_glue. split; [|exact Hg].
  rewrite Hp in Hk. apply kept_prefix in Hk.
  apply kept_not_pending; [exact Hk|].
  intros _.
  destruct (is_ (last_type None (pop_loop (List.length content) content))
                TSoftHyphen) eqn:E; [|reflexivity].
  apply soft_hyphen_is_glue in E. congruence.
Qed.

(** C4. normalize_cells raises ValueError ('no glue between content
    cells') on every input that contains two adjacent content cells, and
    whenever it returns a list, no two neighbours of that list are both
    content cells. *)
Theorem normalize_cells_adjacent_content
        (before after cells out : list Cell) (a b : Cell) :
  (is_content a = true -> is_content b = true ->
   normalize_cells (before ++ a :: b :: after)
   = Raise (ValueError "no glue between content cells"))
  /\ (normalize_cells cells = Ok out -> no_adjacent_content out = true).
Proof.
  split.
  - intros Ha Hb. unfold normalize_cells.
    destruct (loop_prefix before (a :: b :: after)
                (before ++ a :: b :: after) 0 None [])
      as [-> | (prev' & content' & ->)]; [reflexivity|].
    now rewrite loop_adjacent_content by assumption.
  - intros H. apply normalize_cells_output in H as [Hk _].
    exact (@kept_no_adjacent_content false out None Hk).
Qed.

Lemma normalize_cells_adjacent_content_witness :
  let t := Text (ContentCell_init 4 1 (Renderer 0)) in
  let f := Fraction (ContentCell_init 2 3 (Renderer 1)) in
  let s := Space (Glue_init 1 (1 # 2)) in
  let h := SoftHyphen (Glue_init 0 0) in
  (is_content t = true /\ is_content f = true
   /\ normalize_cells ([s] ++ t :: f :: [s])
      = Raise (ValueError "no glue between content cells"))
  /\ (normalize_cells [h; t; h; h; f; s; h] = Ok [t; h; f]
      /\ no_adjacent_content [t; h; f] = true).
Proof.
  intros t f s h.
  destruct (normalize_cells_adjacent_content
              [s] [s] [h; t; h; h; f; s; h] [t; h; f] t f) as [H1 H2].
  split.
  - split; [reflexivity|]. split; [reflexivity|].
    apply H1; reflexivity.
  - split; [reflexivity|]. apply H2. reflexivity.
Defined.

(** C5. normalize_cells is idempotent: normalising the result of a
    successful normalisation returns that result unchanged. *)
Theorem normalize_cells_idempotent (cells out : list Cell) :
  normalize_cells cells = Ok out -> normalize_cells out = Ok out.
Proof.
  intros H. apply normalize_cells_output in H as [Hk Hg].
  unfold normalize_cells.
  pose proof (@loop_kept out [] None [] Hk) as Hloop. simpl in Hloop.
  rewrite Hloop. simpl.
  unfold remove_pending_glue. now rewrite pop_loop_fixed by exact Hg.
Qed.

Lemma normalize_cells_idempotent_witness :
  let t := Text (ContentCell_init 4 1 (Renderer 0)) in
  let f := Fraction (ContentCell_init 2 3 (Renderer 1)) in
  let s := Space (Glue_init 1 (1 # 2)) in
  let n := NonBreakingSpace (Glue_init 1 1) in
  let h := SoftHyphen (Glue_init 0 0) in
  normalize_cells [h; t; h; h; f; s; h; n; t; h; s] = Ok [t; h; f; s; n; t]
  /\ normalize_cells [t; h; f; s; n; t] = Ok [t; h; f; s; n; t].
Proof.
  intros t f s n h. split; [reflexivity|].
  apply (normalize_cells_idempotent [h; t; h; h; f; s; h; n; t; h; s]).
  reflexivity.
Defined.

(** ** resolve_margins *)

Lemma resolve_margins_None_iff (margins : list Q) :
  resolve_margins (Some margins) = None
  <-> (List.length margins = 0 \/ 4 < List.length margins)%nat.
Proof.
  unfold resolve_margins.
  destruct margins as [|a [|b [|c [|d [|e t]]]]]; simpl;
    split; intros H; try discriminate; try lia; auto.
Qed.

(** C3. resolve_margins expands one to four values like the CSS
    shorthand and gives zero margins for an absent argument, but for the
    empty sequence it returns None instead of (0, 0, 0, 0). *)
Theorem resolve_margins_cases :
  resolve_margins (Some []) = None
  /\ resolve_margins (Some [1]) = Some (1, 1, 1, 1)
  /\ resolve_margins (Some [1; 2]) = Some (1, 2, 1, 2)
  /\ resolve_margins (Some [1; 2; 3]) = Some (1, 2, 3, 2)
  /\ resolve_margins (Some [1; 2; 3; 4]) = Some (1, 2, 3, 4)
  /\ resolve_margins None = Some (0, 0, 0, 0).
Proof. repeat split. Qed.

Lemma resolve_margins_shorthand (a b c d : Q) :
  resolve_margins (Some [a]) = Some (a, a, a, a)
  /\ resolve_margins (Some [a; b]) = Some (a, b, a, b)
  /\ resolve_margins (Some [a; b; c]) = Some (a, b, c, b)
  /\ resolve_margins (Some [a; b; c; d]) = Some (a, b, c, d).
Proof. repeat split. Qed.

(** ** Content cells *)

(** C9. final_location() of a content cell (Text or Fraction) that has
    not been placed does not fail and returns (None, None); a container
    in the same situation raises ValueError. *)
Theorem ContentCell_final_location_not_placed
        (width height : Q) (renderer : ContentRenderer)
        (cwidth : option Q) (cheight : option Q) (margins : option (list Q))
        (crender : option ContentRenderer) :
  Cell_final_location (Text (ContentCell_init width height renderer))
  = Ok (None, None)
  /\ Cell_final_location (Fraction (ContentCell_init width height renderer))
     = Ok (None, None)
  /\ Container_final_location (Container_init cwidth cheight margins crender)
     = Raise (ValueError "Container is not placed.").
Proof. repeat split. Qed.

Lemma ContentCell_final_location_placed (c : ContentCell) (x y : Q) :
  ContentCell_final_location (ContentCell_place c x y) = (Some x, Some y).
Proof. reflexivity. Qed.

(** ** Paragraphs and columns *)

Lemma FlowText_init_default (width : Q) :
  FlowText_init width 0 (0, 0, 0) 1 None None None = Ok (FlowText_default width).
Proof. reflexivity. Qed.

Lemma freeze_raises (p : Paragraph) : freeze p = Raise (AttributeError "freeze").
Proof. reflexivity. Qed.

Lemma Column_append_paragraphs_flex (self : Column) (p : Paragraph) (ps : list Paragraph) :
  has_flex_height self = true ->
  Column_append_paragraphs self (p :: ps)
  = (self, Raise (AttributeError "freeze")).
Proof.
  intros Hflex. unfold Column_append_paragraphs. rewrite Hflex.
  cbn [extend_frozen]. rewrite freeze_raises. now destruct self.
Qed.

Lemma Column_append_paragraphs_remainder (self self' : Column)
      (ps remainer : list Paragraph) :
  Column_append_paragraphs self ps = (self', Ok remainer) -> remainer = [].
Proof.
  unfold Column_append_paragraphs.
  destruct (has_flex_height self).
  - destruct (extend_frozen (_paragraphs self) ps) as [qs [u|e]];
      intros [= _ <-]; reflexivity.
  - intros [= _ <-]. reflexivity.
Qed.

(** C1. Column.append_paragraphs of a flexible-height column calls
    freeze() on the first paragraph, which no paragraph class defines:
    the call raises AttributeError, nothing is appended and
    distribute_content is never reached. *)
Theorem Column_append_paragraphs_flexible
        (width gutter_ : Q) (margins : option (list Q))
        (render_ : option ContentRenderer)
        (p : Paragraph) (ps : list Paragraph) :
  has_flex_height (Column_init width None gutter_ margins render_) = true
  /\ Column_append_paragraphs (Column_init width None gutter_ margins render_) (p :: ps)
     = (Column_init width None gutter_ margins render_,
        Raise (AttributeError "freeze"))
  /\ Column_append_paragraphs (Column_init width None gutter_ margins render_) []
     = (Column_init width None gutter_ margins render_, Ok []).
Proof. repeat split. Qed.

(** C2. FlowText.distribute_content does nothing: with raw content and
    a finite height budget it leaves the lines of the paragraph as they
    were and returns None, not the undistributed cells. *)
Theorem distribute_content_does_nothing
        (p : FlowText) (cells : list Cell) (budget : Q) :
  distribute_content (append_content p cells) (Some budget)
  = (append_content p cells, None)
  /\ _lines (fst (distribute_content (append_content p cells) (Some budget)))
     = _lines p.
Proof. split; reflexivity. Qed.

(** ** Layout.append_paragraphs *)

Lemma update_nth_length {A : Type} (i : nat) (x : A) (l : list A) :
  List.length (update_nth i x l) = List.length l.
Proof.
  revert i. induction l as [|a t IH]; intros [|i]; simpl; auto.
Qed.

(** [_new_column] either fails and leaves the layout as it is, or appends
    one column, the empty clone of the column that was last. *)
Lemma _new_column_spec (self : Layout) :
  match _new_column self with
  | (self', Ok i) =>
      exists lastc empty,
        last_column (_columns self) = Ok lastc
        /\ clone_empty lastc = Ok empty
        /\ _columns self' = _columns self ++ [empty]
        /\ _current_column self' = _current_column self
        /\ i = List.length (_columns self)
  | (self', Raise _) => self' = self
  end.
Proof.
  unfold _new_column.
  destruct (_columns self) as [|c cs] eqn:E; [reflexivity|].
  cbn [List.length Nat.eqb last_column bind].
  destruct (clone_empty (last (c :: cs) c)) as [empty|e] eqn:Ec; [|reflexivity].
  exists (last (c :: cs) c), empty. simpl. auto.
Qed.

Lemma fill_existing_total (fuel : nat) :
  forall self remainer,
    (List.length (_columns self) - _current_column self <= fuel)%nat ->
    fill_existing fuel self remainer <> None.
Proof.
  induction fuel as [|fuel IH]; intros self remainer Hfuel.
  - cbn [fill_existing].
    destruct (_current_column self <? List.length (_columns self))%nat eqn:E;
      [|discriminate].
    apply Nat.ltb_lt in E. lia.
  - cbn [fill_existing].
    destruct (_current_column self <? List.length (_columns self))%nat eqn:E;
      [|discriminate].
    apply Nat.ltb_lt in E.
    destruct (nth_error (_columns self) (_current_column self)); [|discriminate].
    destruct (Column_append_paragraphs c remainer) as [column' [remainer'|e]];
      [|discriminate].
    destruct (List.length remainer' =? 0)%nat; [discriminate|].
    apply IH. simpl. rewrite update_nth_length. lia.
Qed.

Lemma create_columns_total (fuel : nat) :
  forall self remainer,
    (0 < fuel)%nat ->
    (102 <= fuel + List.length (_columns self))%nat ->
    create_columns fuel self remainer <> None.
Proof.
  induction fuel as [|fuel IH]; intros self remainer Hpos Hfuel; [lia|].
  cbn [create_columns].
  destruct remainer as [|p ps]; [discriminate|].
  pose proof (_new_column_spec self) as Hnew.
  destruct (_new_column self) as [self1 [i|e]]; [|discriminate].
  destruct Hnew as (lastc & empty & _ & _ & Hcols & _ & _).
  destruct (nth_error (_columns self1) i); [|discriminate].
  destruct (Column_append_paragraphs c (p :: ps)) as [column' [remainer'|e]];
    [|discriminate].
  cbn [_current_column Layout_with_columns].
  destruct (100 <? List.length (_columns self1) - 1)%nat eqn:E; [discriminate|].
  apply Nat.ltb_ge in E.
  rewrite Hcols, length_app in E. simpl in E.
  apply IH; [lia|].
  simpl. rewrite update_nth_length, Hcols, length_app. simpl. lia.
Qed.

(** The iteration bounds of the model are never reached. *)
Lemma Layout_append_paragraphs_total (self : Layout) (paragraphs : list Paragraph) :
  Layout_append_paragraphs self paragraphs <> None.
Proof.
  unfold Layout_append_paragraphs.
  pose proof (@fill_existing_total (List.length (_columns self)) self paragraphs
                ltac:(lia)) as Hfill.
  destruct (fill_existing (List.length (_columns self)) self paragraphs)
    as [[self1 [|remainer1|e]]|]; try discriminate; [|congruence].
  apply create_columns_total; lia.
Qed.

(** C10. Layout.append_paragraphs on a layout without columns, with at
    least one paragraph, raises ValueError ('no column exist') and leaves
    the layout without columns; a column that [_new_column] appends is
    the empty clone of the column that was last. *)
Theorem Layout_append_paragraphs_no_column
        (self other : Layout) (p : Paragraph) (ps : list Paragraph) :
  (_columns self = [] ->
   Layout_append_paragraphs self (p :: ps)
   = Some (self, Raise (ValueError "no column exist")))
  /\ match _new_column other with
     | (other', Ok i) =>
         exists lastc empty,
           last_column (_columns other) = Ok lastc
           /\ clone_empty lastc = Ok empty
           /\ _columns other' = _columns other ++ [empty]
     | (other', Raise _) => other' = other
     end.
Proof.
  split.
  - intros Hnone. unfold Layout_append_paragraphs. rewrite Hnone.
    cbn [List.length fill_existing]. rewrite Hnone.
    cbn [List.length Nat.ltb Nat.leb create_columns].
    unfold _new_column. rewrite Hnone. reflexivity.
  - pose proof (_new_column_spec other) as H.
    destruct (_new_column other) as [other' [i|e]]; [|exact H].
    destruct H as (lastc & empty & H1 & H2 & H3 & _).
    now exists lastc, empty.
Qed.

Lemma Layout_append_paragraphs_no_column_witness :
  let self := Layout_init 10 (Some 20) (Some [1; 2]) None in
  _columns self = []
  /\ Layout_append_paragraphs self [FlowText_default 10]
     = Some (self, Raise (ValueError "no column exist")).
Proof.
  intros self. split; [reflexivity|].
  apply (Layout_append_paragraphs_no_column self self (FlowText_default 10) []).
  reflexivity.
Defined.

(** ** Sizes of containers *)

Section Sizes.
Context {T : Type} `{ContainerClass T}.

Lemma total_width_defined (self : T) (cw : Q) :
  margins_resolved (container self) = true ->
  content_width self = Ok (Some cw) ->
  exists w, total_width self = Ok w.
Proof.
  unfold margins_resolved, total_width, left_margin, right_margin,
    Container_left_margin, Container_right_margin, subscript.
  intros Hm ->. destruct (_margins (container self)) as [[[[t r] b] l]|];
    [|discriminate]. simpl. eauto.
Qed.

Lemma total_height_defined (self : T) (ch : Q) :
  margins_resolved (container self) = true ->
  content_height self = Ok ch ->
  exists h, total_height self = Ok h.
Proof.
  unfold margins_resolved, total_height, top_margin, bottom_margin,
    Container_top_margin, Container_bottom_margin, subscript.
  intros Hm ->. destruct (_margins (container self)) as [[[[t r] b] l]|];
    [|discriminate]. simpl. eauto.
Qed.

End Sizes.

Lemma sum_defined {A : Type} (f : A -> result Q) (xs : list A) :
  (forall x, In x xs -> exists v, f x = Ok v) ->
  forall acc, exists s, sum_ f xs acc = Ok s.
Proof.
  induction xs as [|x xs IH]; intros Hf acc; simpl; [eauto|].
  destruct (Hf x (or_introl eq_refl)) as [v ->]. simpl.
  apply IH. intros y Hy. apply Hf. now right.
Qed.

Lemma max_from_defined {A : Type} (f : A -> result Q) (xs : list A) :
  (forall x, In x xs -> exists v, f x = Ok v) ->
  forall best, exists s, max_from f xs best = Ok s.
Proof.
  induction xs as [|x xs IH]; intros Hf best; simpl; [eauto|].
  destruct (Hf x (or_introl eq_refl)) as [v ->]. simpl.
  apply IH. intros y Hy. apply Hf. now right.
Qed.

Lemma Line_sized (ln : Line) : wf_Line ln = true -> sized ln.
Proof.
  intros Hwf. split.
  - eapply total_width_defined; [exact Hwf | reflexivity].
  - eapply total_height_defined; [exact Hwf | reflexivity].
Qed.

Lemma FlowText_sized (p : FlowText) :
  margins_resolved (FlowText_container p) = true -> sized p.
Proof.
  intros Hwf. split.
  - eapply total_width_defined; [exact Hwf | reflexivity].
  - eapply total_height_defined; [exact Hwf | reflexivity].
Qed.

Lemma Column_sized (c : Column) : wf_Column c = true -> sized c.
Proof.
  unfold wf_Column. intros Hwf. apply andb_true_iff in Hwf as [Hm Hps].
  split.
  - eapply total_width_defined; [exact Hm | reflexivity].
  - assert (Hch : exists ch, content_height c = Ok ch).
    { cbn [content_height Column_class]. unfold Column_content_height.
      destruct (max_content_height c); [eauto|].
      apply sum_defined. intros p Hp.
      rewrite forallb_forall in Hps. specialize (Hps p Hp).
      apply andb_true_iff in Hps as [Hpm _].
      apply (FlowText_sized p Hpm). }
    destruct Hch as [ch Hch].
    eapply total_height_defined; [exact Hm | exact Hch].
Qed.

Lemma Layout_sized (l : Layout) : wf_Layout l = true -> sized l.
Proof.
  unfold wf_Layout. intros Hwf.
  apply andb_true_iff in Hwf as [Hwf Hw].
  apply andb_true_iff in Hwf as [Hm Hcs].
  rewrite forallb_forall in Hcs.
  assert (Hcol : forall c, In c (_columns l) -> sized c).
  { intros c Hc. apply Column_sized, Hcs, Hc. }
  split.
  - assert (Hcw : exists cw, content_width l = Ok (Some cw)).
    { cbn [content_width Layout_class]. unfold Layout_content_width.
      destruct (_columns l) as [|c cs] eqn:E.
      - destruct (_content_width (Layout_container l)); [eauto | discriminate].
      - unfold _calculate_content_width. rewrite E.
        destruct (@sum_defined Column
                    (fun c0 => w <- total_width c0 ;; Ok (w + gutter c0))
                    (removelast (c :: cs))) with (acc := 0) as [s Hs].
        { intros x Hx.
          assert (Hin : In x (c :: cs)).
          { destruct (@exists_last _ (c :: cs) ltac:(discriminate))
              as (front & z & Heq).
            rewrite Heq in Hx |- *. rewrite removelast_last in Hx.
            apply in_or_app. now left. }
          destruct (Hcol x Hin) as [[w Hw'] _]. rewrite Hw'. simpl. eauto. }
        rewrite Hs. cbn [bind last_column].
        assert (Hin : In (last (c :: cs) c) (c :: cs)).
        { destruct (@exists_last _ (c :: cs) ltac:(discriminate))
            as (front & z & Heq).
          rewrite Heq, last_last. apply in_or_app. right. now left. }
        destruct (Hcol _ Hin) as [[w Hw'] _]. rewrite Hw'. simpl. eauto. }
    destruct Hcw as [cw Hcw].
    eapply total_width_defined; [exact Hm | exact Hcw].
  - assert (Hch : exists ch, content_height l = Ok ch).
    { cbn [content_height Layout_class]. unfold Layout_content_height.
      destruct (_columns l) as [|c cs] eqn:E.
      - destruct (_content_height (Layout_container l)); eauto.
      - unfold _calculate_content_height. rewrite E. cbn [max_].
        destruct (Hcol c (or_introl eq_refl)) as [_ [h Hh]]. rewrite Hh.
        cbn [bind]. apply max_from_defined.
        intros x Hx. apply (Hcol x). now right. }
    destruct Hch as [ch Hch].
    eapply total_height_defined; [exact Hm | exact Hch].
Qed.




(** ** Placement *)

Lemma place_each_total {C : Type} `{ContainerClass C} (good : C -> bool)
      (advance : C -> Tuple2f -> result Tuple2f) :
  (forall child xy,
      good child = true ->
      exists child' xy',
        place child (fst xy) (snd xy) = Ok child' /\ advance child' xy = Ok xy') ->
  forall children xy,
    forallb good children = true ->
    exists children', place_each advance xy children = Ok children'.
Proof.
  intros Hstep. induction children as [|child rest IH]; intros xy Hall.
  - simpl. eauto.
  - simpl in Hall. apply andb_true_iff in Hall as [Hc Hrest].
    destruct (Hstep child xy Hc) as (child' & xy' & Hp & Ha).
    destruct (IH xy' Hrest) as [rest' Hr].
    cbn [place_each]. rewrite Hp. cbn [bind]. rewrite Ha. cbn [bind].
    rewrite Hr. simpl. eauto.
Qed.

(** [place_content] writes to the children only. *)
Lemma Line_place_content_container (self self' : Line) :
  place_content self = Ok self' -> container self' = container self.
Proof. now intros [= <-]. Qed.

Lemma FlowText_place_content_container (self self' : FlowText) :
  place_content self = Ok self' -> container self' = container self.
Proof.
  cbn [place_content FlowText_class]. unfold FlowText_place_content. intros H.
  bind_steps H. destruct a as [x y]. bind_steps H. now injection H as <-.
Qed.

Lemma Column_place_content_container (self self' : Column) :
  place_content self = Ok self' -> container self' = container self.
Proof.
  cbn [place_content Column_class]. unfold Column_place_content. intros H.
  bind_steps H. destruct a as [x y]. bind_steps H. now injection H as <-.
Qed.

Lemma Layout_place_content_container (self self' : Layout) :
  place_content self = Ok self' -> container self' = container self.
Proof.
  cbn [place_content Layout_class]. unfold Layout_place_content. intros H.
  bind_steps H. destruct a as [x y]. bind_steps H. now injection H as <-.
Qed.

(** After [Container.place(x, y)] has returned, the container part of the
    object is the old one with the anchor set. *)
Lemma Line_place_container (self self' : Line) (x y : Q) :
  place self x y = Ok self' ->
  container self' = set_final (container self) x y.
Proof. unfold place. intros H. now apply Line_place_content_container in H. Qed.

Lemma FlowText_place_container (self self' : FlowText) (x y : Q) :
  place self x y = Ok self' ->
  container self' = set_final (container self) x y.
Proof. unfold place. intros H. now apply FlowText_place_content_container in H. Qed.

Lemma Column_place_container (self self' : Column) (x y : Q) :
  place self x y = Ok self' ->
  container self' = set_final (container self) x y.
Proof. unfold place. intros H. now apply Column_place_content_container in H. Qed.

Lemma Layout_place_container (self self' : Layout) (x y : Q) :
  place self x y = Ok self' ->
  container self' = set_final (container self) x y.
Proof. unfold place. intros H. now apply Layout_place_content_container in H. Qed.

Lemma final_location_set_final {T : Type} `{ContainerClass T}
      (self : T) (c : Container) (x y : Q) :
  container self = set_final c x y -> final_location self = Ok (x, y).
Proof. unfold final_location. now intros ->. Qed.

(** [place] returns on well-formed containers. *)
Lemma Line_place_total (self : Line) (x y : Q) :
  exists self', place self x y = Ok self'.
Proof. unfold place. simpl. eauto. Qed.

Lemma FlowText_place_total (self : FlowText) (x y : Q) :
  wf_FlowText self = true -> exists self', place self x y = Ok self'.
Proof.
  unfold wf_FlowText, margins_resolved. intros Hwf.
  apply andb_true_iff in Hwf as [Hm Hlines].
  unfold place. cbn [place_content FlowText_class with_container container].
  unfold FlowText_place_content.
  cbn [FlowText_container FlowText_with_container _lines].
  unfold Container_final_location, Container_left_margin, Container_top_margin,
    subscript. cbn [set_final _final_x _final_y _margins bind].
  destruct (_margins (FlowText_container self)) as [[[[t r] b] l]|];
    [|discriminate]. cbn [bind].
  destruct (@place_each_total Line _ wf_Line advance_down) with
    (children := _lines self) (xy := (x + l, y - t)) as [lines Hl];
    [|exact Hlines|].
  - intros ln xy Hln.
    destruct (Line_place_total ln (fst xy) (snd xy)) as [ln' Hp].
    assert (Hwf' : wf_Line ln' = true).
    { unfold wf_Line, margins_resolved.
      change (Line_container ln') with (container ln').
      now rewrite (Line_place_container _ _ _ _ Hp). }
    destruct (Line_sized ln' Hwf') as [_ [h Hh]].
    exists ln', (fst xy, snd xy - h). split; [exact Hp|].
    unfold advance_down. now rewrite Hh.
  - rewrite Hl. simpl. eauto.
Qed.

Lemma Column_place_total (self : Column) (x y : Q) :
  wf_Column self = true -> exists self', place self x y = Ok self'.
Proof.
  unfold wf_Column, margins_resolved. intros Hwf.
  apply andb_true_iff in Hwf as [Hm Hps].
  unfold place. cbn [place_content Column_class with_container container].
  unfold Column_place_content.
  cbn [Column_container _paragraphs].
  unfold Container_final_location, Container_left_margin, Container_top_margin,
    subscript. cbn [set_final _final_x _final_y _margins bind].
  destruct (_margins (Column_container self)) as [[[[t r] b] l]|];
    [|discriminate]. cbn [bind].
  destruct (@place_each_total FlowText _ wf_FlowText advance_down) with
    (children := _paragraphs self) (xy := (x + l, y - t)) as [ps Hl];
    [|exact Hps|].
  - intros p xy Hp.
    destruct (FlowText_place_total p (fst xy) (snd xy) Hp) as [p' Hp'].
    assert (Hm' : margins_resolved (FlowText_container p') = true).
    { change (FlowText_container p') with (container p').
      rewrite (FlowText_place_container _ _ _ _ Hp').
      unfold wf_FlowText in Hp. now apply andb_true_iff in Hp as [Hp _]. }
    destruct (FlowText_sized p' Hm') as [_ [h Hh]].
    exists p', (fst xy, snd xy - h). split; [exact Hp'|].
    unfold advance_down. now rewrite Hh.
  - unfold Paragraph. rewrite Hl. simpl. eauto.
Qed.

Lemma Layout_place_total (self : Layout) (x y : Q) :
  margins_resolved (Layout_container self) = true ->
  forallb wf_Column (_columns self) = true ->
  exists self', place self x y = Ok self'.
Proof.
  unfold margins_resolved. intros Hm Hcs.
  unfold place. cbn [place_content Layout_class with_container container].
  unfold Layout_place_content.
  cbn [Layout_container _columns].
  unfold Container_final_location, Container_left_margin, Container_top_margin,
    subscript. cbn [set_final _final_x _final_y _margins bind].
  destruct (_margins (Layout_container self)) as [[[[t r] b] l]|];
    [|discriminate]. cbn [bind].
  destruct (@place_each_total Column _ wf_Column advance_right) with
    (children := _columns self) (xy := (x + l, y - t)) as [cs Hl];
    [|exact Hcs|].
  - intros c xy Hc.
    destruct (Column_place_total c (fst xy) (snd xy) Hc) as [c' Hc'].
    assert (Hw : exists w, total_width c' = Ok w).
    { eapply total_width_defined; [|reflexivity].
      rewrite (Column_place_container _ _ _ _ Hc').
      unfold wf_Column in Hc. now apply andb_true_iff in Hc as [Hc _]. }
    destruct Hw as [w Hw].
    exists c', (fst xy + (w + gutter c'), snd xy). split; [exact Hc'|].
    unfold advance_right. now rewrite Hw.
  - rewrite Hl. simpl. eauto.
Qed.

(** ** Layout.place *)

Lemma insert_location_grid (align : Z) (width height : Q) :
  (1 <= align <= 9)%Z ->
  Tuple2f_eq (insert_location align width height)
             (grid_offset align width height).
Proof.
  intros Hrange.
  assert (Hcases : (align = 1 \/ align = 2 \/ align = 3 \/ align = 4
                    \/ align = 5 \/ align = 6 \/ align = 7 \/ align = 8
                    \/ align = 9)%Z) by lia.
  unfold Tuple2f_eq, grid_offset.
  repeat (destruct Hcases as [-> | Hcases]); try subst align;
    cbn; split; field.
Qed.

Lemma Layout_place_spec (self : Layout) (x y : Q) (align : Z) :
  wf_Layout self = true ->
  exists w h,
    total_width self = Ok w
    /\ total_height self = Ok h
    /\ placed_at (Layout_place self x y align)
                 (x + fst (insert_location align w h))
                 (y + snd (insert_location align w h)).
Proof.
  intros Hwf.
  destruct (Layout_sized self Hwf) as [[w Hw] [h Hh]].
  exists w, h. split; [exact Hw|]. split; [exact Hh|].
  unfold Layout_place. rewrite Hw, Hh. cbn [bind].
  destruct (insert_location align w h) as [left_ top_]. cbn [fst snd].
  unfold wf_Layout in Hwf.
  apply andb_true_iff in Hwf as [Hwf _].
  apply andb_true_iff in Hwf as [Hm Hcs].
  destruct (Layout_place_total self (x + left_) (y + top_) Hm Hcs) as [self' Hp].
  exists self'. split; [exact Hp|].
  eapply final_location_set_final.
  apply (Layout_place_container _ _ _ _ Hp).
Qed.

Lemma Layout_place_anchored (self self' : Layout) (x y : Q) (align : Z) :
  Layout_place self x y align = Ok self' ->
  exists w h,
    total_width self = Ok w
    /\ total_height self = Ok h
    /\ final_location self'
       = Ok (x + fst (insert_location align w h),
             y + snd (insert_location align w h)).
Proof.
  unfold Layout_place. intros H.
  apply bind_Ok_inv in H as (w & Hw & H).
  apply bind_Ok_inv in H as (h & Hh & H).
  exists w, h. split; [exact Hw|]. split; [exact Hh|].
  destruct (insert_location align w h) as [left_ top_]. cbn [fst snd].
  eapply final_location_set_final.
  apply (Layout_place_container _ _ _ _ H).
Qed.

(** C7. Layout.place(x, y, anchor) takes the offset of the anchor from
    insert_location(anchor, total_width, total_height), which for the
    codes 1 to 9 is the offset in the 3 x 3 grid numbered row by row, and
    places the layout at (x + offset_x, y + offset_y); for width 10 and
    height 20 the offsets of the anchors 1, 5 and 9 are (0, 0), (-5, 10)
    and (-10, 20).  The call returns when the margins of the layout and
    of its content are resolved. *)
Theorem Layout_place_anchor (self : Layout) (x y : Q) (align : Z) :
  (Tuple2f_eq (insert_location 1 10 20) (0, 0)
   /\ Tuple2f_eq (insert_location 5 10 20) (-5, 10)
   /\ Tuple2f_eq (insert_location 9 10 20) (-10, 20))
  /\ ((1 <= align <= 9)%Z ->
      forall width height,
        Tuple2f_eq (insert_location align width height)
                   (grid_offset align width height))
  /\ (forall self',
         Layout_place self x y align = Ok self' ->
         exists w h,
           total_width self = Ok w
           /\ total_height self = Ok h
           /\ final_location self'
              = Ok (x + fst (insert_location align w h),
                    y + snd (insert_location align w h)))
  /\ (wf_Layout self = true ->
      exists self', Layout_place self x y align = Ok self').
Proof.
  split; [|split; [|split]].
  - unfold Tuple2f_eq. cbn. repeat split; reflexivity.
  - intros Hrange width height. now apply insert_location_grid.
  - intros self'. apply Layout_place_anchored.
  - intros Hwf.
    destruct (Layout_place_spec self x y align Hwf)
      as (w & h & _ & _ & self' & Hp & _).
    now exists self'.
Qed.

Lemma Layout_place_anchor_witness :
  let l := fst (add_column (Layout_init 10 None None None)
                           None (Some 20) 0 None None) in
  (wf_Layout l = true /\ (1 <= 5 <= 9)%Z)
  /\ Tuple2f_eq (insert_location 5 10 20) (grid_offset 5 10 20)
  /\ exists l' w h fx fy,
      Layout_place l 100 50 5 = Ok l'
      /\ total_width l = Ok w /\ w == 10
      /\ total_height l = Ok h /\ h == 20
      /\ final_location l' = Ok (fx, fy) /\ fx == 95 /\ fy == 60.
Proof.
  intros l.
  destruct (Layout_place_anchor l 100 50 5) as (_ & Hgrid & Hat & Hret).
  split; [split; [reflexivity | lia]|].
  split; [apply Hgrid; lia|].
  destruct (Hret eq_refl) as (l' & Hp).
  destruct (Hat l' Hp) as (w & h & Hw & Hh & Hf).
  exists l', w, h,
    (100 + fst (insert_location 5 w h)), (50 + snd (insert_location 5 w h)).
  vm_compute in Hw. injection Hw as <-.
  vm_compute in Hh. injection Hh as <-.
  repeat split; try assumption; reflexivity.
Defined.

(** ** Containers that are not placed *)

Lemma not_placed_fails {T : Type} `{ContainerClass T}
      (self : T) (m : option Matrix44) :
  is_placed self = false -> fails_when_advanced self m.
Proof.
  intros Hnot. split.
  - unfold final_location, Container_final_location.
    unfold is_placed, Container_is_placed in Hnot.
    destruct (_final_x (container self)), (_final_y (container self));
      try reflexivity; discriminate.
  - exists (Suspended (render_body self m)).
    split; [reflexivity|].
    unfold render_body. rewrite Hnot. split; reflexivity.
Qed.

Lemma render_returns_generator {T : Type} `{ContainerClass T}
      (self : T) (m : option Matrix44) :
  ~ fails_before_place self m.
Proof. intros [_ [e He]]. discriminate. Qed.

Lemma Line_placed_at (self : Line) (x y : Q) :
  placed_at (place self x y) x y.
Proof.
  destruct (Line_place_total self x y) as [self' Hp].
  exists self'. split; [exact Hp|].
  eapply final_location_set_final. apply (Line_place_container _ _ _ _ Hp).
Qed.

Lemma FlowText_placed_at (self : FlowText) (x y : Q) :
  wf_FlowText self = true -> placed_at (place self x y) x y.
Proof.
  intros Hwf. destruct (FlowText_place_total self x y Hwf) as [self' Hp].
  exists self'. split; [exact Hp|].
  eapply final_location_set_final. apply (FlowText_place_container _ _ _ _ Hp).
Qed.

Lemma Column_placed_at (self : Column) (x y : Q) :
  wf_Column self = true -> placed_at (place self x y) x y.
Proof.
  intros Hwf. destruct (Column_place_total self x y Hwf) as [self' Hp].
  exists self'. split; [exact Hp|].
  eapply final_location_set_final. apply (Column_place_container _ _ _ _ Hp).
Qed.

Lemma Line_anchored (self : Line) (x y : Q) : anchored (place self x y) x y.
Proof.
  intros self' Hp. eapply final_location_set_final.
  apply (Line_place_container _ _ _ _ Hp).
Qed.

Lemma FlowText_anchored (self : FlowText) (x y : Q) :
  anchored (place self x y) x y.
Proof.
  intros self' Hp. eapply final_location_set_final.
  apply (FlowText_place_container _ _ _ _ Hp).
Qed.

Lemma Column_anchored (self : Column) (x y : Q) :
  anchored (place self x y) x y.
Proof.
  intros self' Hp. eapply final_location_set_final.
  apply (Column_place_container _ _ _ _ Hp).
Qed.

(** C8, as the code has it.  For every container that is not placed,
    final_location() raises ValueError; render() returns a generator
    without failing, and advancing that generator raises ValueError.
    Whenever place(x, y) returns, final_location() then returns the
    anchor: (x, y), and for a layout (x, y) moved by the offset of its
    alignment; place returns on every container whose margins and whose
    content's margins are resolved. *)
Theorem not_placed_errors
        (ln : Line) (p : Paragraph) (c : Column) (l : Layout)
        (x y : Q) (align : Z) (m : option Matrix44) :
  ((is_placed ln = false -> fails_when_advanced ln m)
   /\ (is_placed p = false -> fails_when_advanced p m)
   /\ (is_placed c = false -> fails_when_advanced c m)
   /\ (is_placed l = false -> fails_when_advanced l m))
  /\ (anchored (place ln x y) x y
      /\ anchored (place p x y) x y
      /\ anchored (place c x y) x y
      /\ forall l',
          Layout_place l x y align = Ok l' ->
          exists w h,
            total_width l = Ok w
            /\ total_height l = Ok h
            /\ final_location l'
               = Ok (x + fst (insert_location align w h),
                     y + snd (insert_location align w h)))
  /\ (wf_Line ln = true -> placed_at (place ln x y) x y)
  /\ (wf_FlowText p = true -> placed_at (place p x y) x y)
  /\ (wf_Column c = true -> placed_at (place c x y) x y)
  /\ (wf_Layout l = true ->
      exists l', Layout_place l x y align = Ok l').
Proof.
  split; [repeat split; apply not_placed_fails; assumption|].
  split.
  { split; [apply Line_anchored|].
    split; [apply FlowText_anchored|].
    split; [apply Column_anchored|].
    intros l'. apply Layout_place_anchored. }
  split; [intros _; apply Line_placed_at|].
  split; [apply FlowText_placed_at|].
  split; [apply Column_placed_at|].
  intros Hwf.
  destruct (Layout_place_spec l x y align Hwf)
    as (w & h & _ & _ & l' & Hp & _).
  now exists l'.
Qed.

Lemma not_placed_errors_witness :
  let ln := Line__init__ 10 0 (Some [1; 2]) None in
  let p := FlowText_default 10 in
  let c := Column_with_paragraphs
             (Column_init 10 None 1 (Some [1; 2; 3]) (Some (Renderer 7))) [p; p] in
  let l := fst (add_column (Layout_init 30 None (Some [1]) None)
                           None (Some 20) 1 (Some [2; 3; 4; 5]) None) in
  (is_placed ln = false /\ is_placed p = false
   /\ is_placed c = false /\ is_placed l = false)
  /\ (wf_Line ln = true /\ wf_FlowText p = true
      /\ wf_Column c = true /\ wf_Layout l = true)
  /\ (fails_when_advanced ln None /\ fails_when_advanced p None
      /\ fails_when_advanced c None /\ fails_when_advanced l None)
  /\ placed_at (place ln 3 4) 3 4
  /\ placed_at (place p 3 4) 3 4
  /\ placed_at (place c 3 4) 3 4
  /\ exists l' w h,
      Layout_place l 3 4 7 = Ok l'
      /\ total_width l = Ok w
      /\ total_height l = Ok h
      /\ final_location l'
         = Ok (3 + fst (insert_location 7 w h),
               4 + snd (insert_location 7 w h)).
Proof.
  intros ln p c l.
  destruct (not_placed_errors ln p c l 3 4 7 None)
    as ((Fln & Fp & Fc & Fl) & (_ & _ & _ & Al) & Pln & Pp & Pc & Pl).
  split; [repeat split|].
  split; [repeat split|].
  split; [split; [apply Fln | split; [apply Fp | split; [apply Fc | apply Fl]]];
          reflexivity|].
  split; [apply Pln; reflexivity|].
  split; [apply Pp; reflexivity|].
  split; [apply Pc; reflexivity|].
  destruct (Pl eq_refl) as (l' & Hp).
  destruct (Al l' Hp) as (w & h & Hw & Hh & Hf).
  now exists l', w, h.
Defined.

(** The call of render() on a column that is not placed does not fail. *)
Lemma render_before_place_does_not_fail :
  let c := Column_init 10 None 0 None None in
  is_placed c = false /\ ~ fails_before_place c None.
Proof.
  intros c. split; [reflexivity|]. apply render_returns_generator.
Qed.

(* ================================================================== *)
(** * Further properties of normalize_cells *)

Lemma no_adjacent_content_tail (c : Cell) (t : list Cell) :
  no_adjacent_content (c :: t) = true -> no_adjacent_content t = true.
Proof.
  cbn [no_adjacent_content]. destruct t as [|b t']; [reflexivity|].
  intros H. now apply andb_true_iff in H as [_ H].
Qed.

Lemma no_adjacent_content_head (c b : Cell) (t : list Cell) :
  no_adjacent_content (c :: b :: t) = true ->
  is_content c = true -> is_content b = false.
Proof.
  cbn [no_adjacent_content]. intros H Hc.
  apply andb_true_iff in H as [H _]. rewrite Hc in H.
  now destruct (is_content b).
Qed.

Lemma adjacent_content_split (l : list Cell) :
  no_adjacent_content l = false ->
  exists l1 a b l2,
    l = l1 ++ a :: b :: l2 /\ is_content a = true /\ is_content b = true.
Proof.
  induction l as [|a t IH]; [discriminate|].
  cbn [no_adjacent_content]. destruct t as [|b t']; [discriminate|].
  intros H. apply andb_false_iff in H as [H|H].
  - apply negb_false_iff, andb_true_iff in H as [Ha Hb].
    now exists [], a, b, t'.
  - destruct (IH H) as (l1 & x & y & l2 & -> & Hx & Hy).
    now exists (a :: l1), x, y, l2.
Qed.

(** The loop does not raise on an input without adjacent content cells:
    when the last appended cell is a content cell, the next cell to visit
    is not one. *)
Lemma loop_succeeds (todo : list Cell) :
  forall done prev content,
    no_adjacent_content todo = true ->
    (in_ prev _content = true ->
     match todo with
     | c :: _ => is_content c = false
     | [] => True
     end) ->
    exists out,
      loop (done ++ todo) (List.length done) todo prev content = Ok out.
Proof.
  induction todo as [|c t IH]; intros done prev content Hadj Hprev.
  - simpl. eauto.
  - assert (Hnext : forall prev' content',
               (in_ prev' _content = true ->
                match t with
                | d :: _ => is_content d = false
                | [] => True
                end) ->
               exists out,
                 loop (done ++ c :: t) (S (List.length done)) t prev' content'
                 = Ok out).
    { intros prev' content' Hp'.
      destruct (IH (done ++ [c]) prev' content'
                  (no_adjacent_content_tail _ _ Hadj) Hp') as [out Hout].
      exists out. rewrite <- Hout, <- app_assoc, length_app. simpl.
      now rewrite Nat.add_1_r. }
    cbn beta iota zeta delta [loop].
    destruct (in_ (Some (type c)) _content) eqn:Ec.
    + destruct (in_ prev _content) eqn:Ep.
      { specialize (Hprev eq_refl). unfold is_content in Hprev. congruence. }
      apply Hnext. intros _. destruct t as [|d t']; [exact I|].
      exact (no_adjacent_content_head _ _ _ Hadj Ec).
    + destruct (is_ (Some (type c)) TSoftHyphen) eqn:Es.
      * destruct (is_ prev TSoftHyphen) eqn:Eh.
        { apply Hnext. intros Hp.
          rewrite (content_not_soft_hyphen _ Hp) in Eh. discriminate. }
        destruct (in_ prev _content) eqn:Ep; cbn [negb orb].
        -- rewrite peek_next.
           destruct (in_ match t with
                         | d :: _ => Some (type d)
                         | [] => None
                         end _content) eqn:Et; cbn [negb].
           ++ apply Hnext. intros Hp. congruence.
           ++ apply Hnext. intros _. destruct t as [|d t']; [exact I | exact Et].
        -- apply Hnext. intros Hp. congruence.
      * apply Hnext. intros Hp. congruence.
Qed.

(** X1. normalize_cells returns a list exactly when no two neighbours of
    its input are both content cells; soft hyphens and other glue never
    make it fail. *)
Theorem normalize_cells_succeeds_iff (cells : list Cell) :
  (exists out, normalize_cells cells = Ok out)
  <-> no_adjacent_content cells = true.
Proof.
  split.
  - intros [out Hout].
    destruct (no_adjacent_content cells) eqn:E; [reflexivity|].
    destruct (adjacent_content_split _ E) as (l1 & a & b & l2 & -> & Ha & Hb).
    unfold normalize_cells in Hout.
    destruct (loop_prefix l1 (a :: b :: l2) (l1 ++ a :: b :: l2) 0 None [])
      as [Hr | (prev' & content' & Hr)]; rewrite Hr in Hout; [discriminate|].
    rewrite loop_adjacent_content in Hout by assumption. discriminate.
  - intros Hadj. unfold normalize_cells.
    destruct (loop_succeeds cells [] None [] Hadj ltac:(discriminate))
      as [out Hout].
    simpl in Hout. rewrite Hout. simpl. eauto.
Qed.

Lemma Subseq_refl {A : Type} (l : list A) : Subseq l l.
Proof. induction l; constructor; assumption. Qed.

Lemma Subseq_nil_l {A : Type} (l : list A) : Subseq [] l.
Proof. induction l; constructor; assumption. Qed.

Lemma Subseq_prefix {A : Type} (l1 l2 : list A) : Subseq l1 (l1 ++ l2).
Proof.
  induction l1 as [|a l1 IH]; simpl; [apply Subseq_nil_l | now constructor].
Qed.

Lemma Subseq_app_head {A : Type} (l l1 l2 : list A) :
  Subseq l1 l2 -> Subseq (l ++ l1) (l ++ l2).
Proof. intros H. induction l; simpl; [exact H | now constructor]. Qed.

Lemma Subseq_trans {A : Type} (l1 l2 l3 : list A) :
  Subseq l1 l2 -> Subseq l2 l3 -> Subseq l1 l3.
Proof.
  intros H12 H23. revert l1 H12.
  induction H23 as [|x l2 l3 H23 IH|x l2 l3 H23 IH]; intros l1 H12.
  - exact H12.
  - inversion H12 as [|y l1' l2' H' |y l1' l2' H']; subst.
    + constructor. now apply IH.
    + apply Subseq_skip. now apply IH.
  - apply Subseq_skip. now apply IH.
Qed.

Lemma Subseq_length {A : Type} (l1 l2 : list A) :
  Subseq l1 l2 -> (List.length l1 <= List.length l2)%nat.
Proof. induction 1; simpl; lia. Qed.

(** What the loop appends is taken from the cells it visits, in their
    order, and includes every content cell among them. *)
Lemma loop_appends (todo : list Cell) :
  forall cells index prev content out,
    loop cells index todo prev content = Ok out ->
    exists appended,
      out = content ++ appended
      /\ Subseq appended todo
      /\ filter is_content appended = filter is_content todo.
Proof.
  induction todo as [|c t IH]; intros cells index prev content out H.
  - simpl in H. injection H as <-. exists []. rewrite app_nil_r.
    repeat split. constructor.
  - assert (Hkeep : forall prev',
               loop cells (S index) t prev' (content ++ [c]) = Ok out ->
               exists appended,
                 out = content ++ appended
                 /\ Subseq appended (c :: t)
                 /\ filter is_content appended = filter is_content (c :: t)).
    { intros prev' H'. destruct (IH _ _ _ _ _ H') as (app' & -> & Hs & Hf).
      exists (c :: app'). rewrite <- app_assoc. split; [reflexivity|].
      split; [now constructor|].
      simpl. now rewrite Hf. }
    assert (Hdrop : is_content c = false ->
               forall prev',
                 loop cells (S index) t prev' content = Ok out ->
                 exists appended,
                   out = content ++ appended
                   /\ Subseq appended (c :: t)
                   /\ filter is_content appended = filter is_content (c :: t)).
    { intros Hc prev' H'. destruct (IH _ _ _ _ _ H') as (app' & -> & Hs & Hf).
      exists app'. split; [reflexivity|]. split; [now constructor|].
      simpl. now rewrite Hc. }
    cbn beta iota zeta delta [loop] in H.
    destruct (in_ (Some (type c)) _content) eqn:Ec.
    + destruct (in_ prev _content); [discriminate|]. now apply (Hkeep _ H).
    + destruct (is_ (Some (type c)) TSoftHyphen).
      * destruct (is_ prev TSoftHyphen); [now apply (Hdrop Ec _ H)|].
        destruct (negb (in_ prev _content)
                  || negb (in_ (peek cells index) _content));
          [now apply (Hdrop Ec _ H) | now apply (Hkeep _ H)].
      * now apply (Hkeep _ H).
Qed.

(** The cells removed at the end are glue. *)
Lemma pop_loop_popped (fuel : nat) :
  forall content,
    exists popped,
      content = pop_loop fuel content ++ popped
      /\ forallb is_glue popped = true.
Proof.
  induction fuel as [|fuel IH]; intros content.
  - exists []. now rewrite app_nil_r.
  - destruct content as [|c content'] using rev_ind.
    + now exists [].
    + clear IHcontent'. cbn [pop_loop].
      rewrite last_cell_snoc, removelast_last.
      destruct (in_ (Some (type c)) _glue) eqn:E.
      * destruct (IH content') as (popped & Hp & Hg).
        exists (popped ++ [c]). split; [now rewrite app_assoc, <- Hp|].
        rewrite forallb_app, Hg. simpl. unfold is_glue. now rewrite E.
      * exists []. now rewrite app_nil_r.
Qed.

Lemma glue_not_content (l : list Cell) :
  forallb is_glue l = true -> filter is_content l = [].
Proof.
  induction l as [|c t IH]; [reflexivity|].
  simpl. intros H. apply andb_true_iff in H as [Hc Ht].
  rewrite (IH Ht). now destruct c.
Qed.

(** X2. The list normalize_cells returns is its input with some cells
    left out: the cells kept are in their original order, none is added
    or changed. *)
Theorem normalize_cells_subsequence (cells out : list Cell) :
  normalize_cells cells = Ok out ->
  Subseq out cells /\ (List.length out <= List.length cells)%nat.
Proof.
  unfold normalize_cells. intros H.
  apply bind_Ok_inv in H as (content & Hloop & Hout).
  injection Hout as <-.
  destruct (loop_appends _ _ _ _ _ _ Hloop) as (appended & -> & Hs & _).
  simpl in *.
  destruct (pop_loop_popped (List.length appended) appended) as (popped & Hp & _).
  unfold remove_pending_glue.
  remember (pop_loop (List.length appended) appended) as kept_cells eqn:Hk.
  clear Hk.
  assert (Hsub : Subseq kept_cells cells).
  { apply Subseq_trans with appended; [|exact Hs].
    rewrite Hp. apply Subseq_prefix. }
  split; [exact Hsub | now apply Subseq_length].
Qed.

Lemma normalize_cells_subsequence_witness :
  let t := Text (ContentCell_init 4 1 (Renderer 0)) in
  let s := Space (Glue_init 1 (1 # 2)) in
  let h := SoftHyphen (Glue_init 0 0) in
  normalize_cells [s; t; h; s; t; s] = Ok [s; t; s; t]
  /\ Subseq [s; t; s; t] [s; t; h; s; t; s].
Proof.
  intros t s h. split; [reflexivity|].
  apply (normalize_cells_subsequence [s; t; h; s; t; s] [s; t; s; t]).
  reflexivity.
Defined.

(** X3. normalize_cells never drops a content cell: the content cells of
    the result are the content cells of the input, in the same order. *)
Theorem normalize_cells_keeps_content (cells out : list Cell) :
  normalize_cells cells = Ok out ->
  filter is_content out = filter is_content cells.
Proof.
  unfold normalize_cells. intros H.
  apply bind_Ok_inv in H as (content & Hloop & Hout).
  injection Hout as <-.
  destruct (loop_appends _ _ _ _ _ _ Hloop) as (appended & -> & _ & Hf).
  simpl in *. rewrite <- Hf.
  destruct (pop_loop_popped (List.length appended) appended) as (popped & Hp & Hg).
  unfold remove_pending_glue.
  remember (pop_loop (List.length appended) appended) as kept_cells eqn:Hk.
  clear Hk.
  rewrite Hp, filter_app, (glue_not_content _ Hg).
  now rewrite app_nil_r.
Qed.

Lemma normalize_cells_keeps_content_witness :
  let t := Text (ContentCell_init 4 1 (Renderer 0)) in
  let f := Fraction (ContentCell_init 2 3 (Renderer 1)) in
  let s := Space (Glue_init 1 (1 # 2)) in
  let h := SoftHyphen (Glue_init 0 0) in
  normalize_cells [h; t; h; s; f; s; h] = Ok [t; s; f]
  /\ filter is_content [t; s; f] = filter is_content [h; t; h; s; f; s; h].
Proof.
  intros t f s h. split; [reflexivity|].
  apply (normalize_cells_keeps_content [h; t; h; s; f; s; h] [t; s; f]).
  reflexivity.
Defined.

Lemma not_glue_is_content (t : option CellType) :
  in_ t _glue = false -> t = None \/ in_ t _content = true.
Proof. destruct t as [[]|]; simpl; auto; discriminate. Qed.

(** X4. A list returned by normalize_cells is empty or ends with a
    content cell: no glue is left pending at its end. *)
Theorem normalize_cells_ends_with_content (cells out : list Cell) :
  normalize_cells cells = Ok out ->
  out = [] \/ exists front c, out = front ++ [c] /\ is_content c = true.
Proof.
  intros H. apply normalize_cells_output in H as [_ Hg].
  destruct out as [|c front] using rev_ind; [now left|].
  right. exists front, c. split; [reflexivity|].
  rewrite last_type_snoc in Hg.
  destruct (not_glue_is_content _ Hg) as [Hn|Hc]; [discriminate | exact Hc].
Qed.

Lemma normalize_cells_ends_with_content_witness :
  let t := Text (ContentCell_init 4 1 (Renderer 0)) in
  let s := Space (Glue_init 1 (1 # 2)) in
  let n := NonBreakingSpace (Glue_init 1 1) in
  let b := Tab (Glue_init 8 0) in
  normalize_cells [s; t; n; b; s] = Ok ([s] ++ [t])
  /\ ([s] ++ [t] = []
      \/ exists front c, [s] ++ [t] = front ++ [c] /\ is_content c = true).
Proof.
  intros t s n b. split; [reflexivity|].
  apply (normalize_cells_ends_with_content [s; t; n; b; s]).
  reflexivity.
Defined.

Lemma kept_soft_hyphen (pending : bool) (l1 : list Cell) :
  forall prev h l2,
    kept pending prev (l1 ++ h :: l2) = true ->
    is_soft_hyphen h = true ->
    in_ (last_type prev l1) _content = true
    /\ match l2 with
       | b :: _ => is_content b = true
       | [] => pending = true
       end.
Proof.
  induction l1 as [|a l1 IH]; intros prev h l2 Hk Hh.
  - cbn [app kept] in Hk.
    apply andb_true_iff in Hk as [Hk _].
    apply andb_true_iff in Hk as [Hadm Hfol].
    assert (Hc : is_content h = false)
      by (destruct h; cbv in Hh; try discriminate Hh; reflexivity).
    unfold admits in Hadm. unfold followed in Hfol.
    rewrite Hc, Hh in Hadm. rewrite Hh in Hfol.
    split; [exact Hadm | now destruct l2].
  - cbn [app kept] in Hk.
    apply andb_true_iff in Hk as [_ Hk].
    exact (IH _ _ _ Hk Hh).
Qed.

(** X5. In a list returned by normalize_cells every soft hyphen stands
    directly between two content cells. *)
Theorem normalize_cells_soft_hyphen_between_content
        (cells out before after : list Cell) (h : Cell) :
  normalize_cells cells = Ok out ->
  out = before ++ h :: after ->
  is_soft_hyphen h = true ->
  (exists front a, before = front ++ [a] /\ is_content a = true)
  /\ (exists b rest, after = b :: rest /\ is_content b = true).
Proof.
  intros H -> Hh. apply normalize_cells_output in H as [Hk _].
  destruct (kept_soft_hyphen _ _ _ _ _ Hk Hh) as [Hb Ha].
  split.
  - destruct before as [|a front] using rev_ind; [discriminate|].
    rewrite last_type_snoc in Hb. now exists front, a.
  - destruct after as [|b rest]; [discriminate|]. now exists b, rest.
Qed.

Lemma normalize_cells_soft_hyphen_between_content_witness :
  let t := Text (ContentCell_init 4 1 (Renderer 0)) in
  let f := Fraction (ContentCell_init 2 3 (Renderer 1)) in
  let s := Space (Glue_init 1 (1 # 2)) in
  let h := SoftHyphen (Glue_init 0 0) in
  (normalize_cells [h; s; t; h; f; h; s; h; t] = Ok ([s; t] ++ h :: [f; s; t])
   /\ is_soft_hyphen h = true)
  /\ (exists front a, [s; t] = front ++ [a] /\ is_content a = true)
  /\ (exists b rest, [f; s; t] = b :: rest /\ is_content b = true).
Proof.
  intros t f s h. split; [split; reflexivity|].
  apply (normalize_cells_soft_hyphen_between_content
           [h; s; t; h; f; h; s; h; t] ([s; t] ++ h :: [f; s; t])
           [s; t] [f; s; t] h); reflexivity.
Defined.

Lemma glue_is_not_content (g : Cell) :
  is_glue g = true -> in_ (Some (type g)) _content = false.
Proof. destruct g; cbv; congruence. Qed.

Lemma head_snoc_glue (t : list Cell) (g : Cell) :
  is_glue g = true ->
  in_ match t ++ [g] with
      | d :: _ => Some (type d)
      | [] => None
      end _content
  = in_ match t with
        | d :: _ => Some (type d)
        | [] => None
        end _content.
Proof.
  intros Hg. destruct t as [|d t']; [|reflexivity].
  change (in_ (Some (type g)) _content = in_ None _content).
  now rewrite (glue_is_not_content _ Hg).
Qed.

(** A glue cell at the very end of the input is visited last: a soft
    hyphen there is dropped, any other glue is appended. *)
Lemma loop_snoc_glue (g : Cell) (todo : list Cell) :
  is_glue g = true ->
  forall done prev content,
    loop (done ++ todo ++ [g]) (List.length done) (todo ++ [g]) prev content
    = (c <- loop (done ++ todo) (List.length done) todo prev content ;;
       Ok (if is_soft_hyphen g then c else c ++ [g])).
Proof.
  intros Hg. induction todo as [|c t IH]; intros done prev content.
  - cbn [app]. rewrite app_nil_r. cbn beta iota zeta delta [loop bind].
    rewrite (glue_is_not_content _ Hg).
    unfold is_soft_hyphen.
    destruct (is_ (Some (type g)) TSoftHyphen); [|reflexivity].
    destruct (is_ prev TSoftHyphen); [reflexivity|].
    rewrite (peek_next done g []). cbn [in_ negb]. now rewrite orb_true_r.
  - assert (Hnext : forall prev' content',
               loop (done ++ (c :: t) ++ [g]) (S (List.length done))
                    (t ++ [g]) prev' content'
               = (r <- loop (done ++ c :: t) (S (List.length done)) t
                            prev' content' ;;
                  Ok (if is_soft_hyphen g then r else r ++ [g]))).
    { intros prev' content'.
      specialize (IH (done ++ [c]) prev' content').
      rewrite <- !app_assoc, length_app in IH. simpl in IH.
      rewrite Nat.add_1_r in IH. exact IH. }
    cbn [app]. cbn beta iota zeta delta [loop].
    rewrite (peek_next done c (t ++ [g])), (peek_next done c t),
      (head_snoc_glue t g Hg).
    repeat match goal with
           | |- context [if ?b then _ else _] =>
               match b with
               | is_soft_hyphen _ => fail 1
               | _ => destruct b
               end
           end; try reflexivity; apply Hnext.
Qed.

Lemma normalize_cells_snoc_glue (cells : list Cell) (g : Cell) :
  is_glue g = true ->
  normalize_cells (cells ++ [g]) = normalize_cells cells.
Proof.
  intros Hg. unfold normalize_cells.
  pose proof (loop_snoc_glue g cells Hg [] None []) as Hloop.
  simpl in Hloop. rewrite Hloop.
  destruct (loop cells 0 cells None []) as [c|e]; [|reflexivity].
  cbn [bind]. f_equal.
  destruct (is_soft_hyphen g); [reflexivity|].
  unfold remove_pending_glue. rewrite length_app, Nat.add_1_r.
  cbn [pop_loop]. rewrite last_cell_snoc, removelast_last.
  unfold is_glue in Hg. now rewrite Hg.
Qed.

(** X6. Glue cells added at the end of the input do not change what
    normalize_cells does: it returns the same list or raises the same
    error. *)
Theorem normalize_cells_trailing_glue (cells glue : list Cell) :
  forallb is_glue glue = true ->
  normalize_cells (cells ++ glue) = normalize_cells cells.
Proof.
  induction glue as [|g glue IH] using rev_ind; intros Hg.
  - now rewrite app_nil_r.
  - rewrite forallb_app in Hg. apply andb_true_iff in Hg as [Hglue Hg].
    simpl in Hg. rewrite andb_true_r in Hg.
    rewrite app_assoc, (normalize_cells_snoc_glue _ _ Hg). now apply IH.
Qed.

Lemma normalize_cells_trailing_glue_witness :
  let t := Text (ContentCell_init 4 1 (Renderer 0)) in
  let s := Space (Glue_init 1 (1 # 2)) in
  let n := NonBreakingSpace (Glue_init 1 1) in
  let h := SoftHyphen (Glue_init 0 0) in
  forallb is_glue [n; h; s] = true
  /\ normalize_cells ([t; s; t; s] ++ [n; h; s]) = normalize_cells [t; s; t; s]
  /\ normalize_cells [t; s; t; s] = Ok [t; s; t]
  /\ normalize_cells ([t; t] ++ [n; h; s]) = normalize_cells [t; t].
Proof.
  intros t s n h. split; [reflexivity|].
  split; [apply (normalize_cells_trailing_glue [t; s; t; s] [n; h; s]);
          reflexivity|].
  split; reflexivity.
Defined.

(** Soft hyphens in front of another soft hyphen are dropped. *)
Lemma loop_soft_hyphen_run (gs : list Glue) (g : Glue) (rest : list Cell) :
  forall done prev content,
    in_ prev _content = true ->
    loop (done ++ map SoftHyphen gs ++ SoftHyphen g :: rest)
         (List.length done)
         (map SoftHyphen gs ++ SoftHyphen g :: rest) prev content
    = loop (done ++ map SoftHyphen gs ++ SoftHyphen g :: rest)
           (List.length done + List.length gs)
           (SoftHyphen g :: rest) prev content.
Proof.
  induction gs as [|g0 gs IH]; intros done prev content Hp.
  - simpl. now rewrite Nat.add_0_r.
  - specialize (IH (done ++ [SoftHyphen g0]) prev content Hp).
    rewrite <- !app_assoc, length_app in IH. cbn [app List.length] in IH.
    rewrite Nat.add_1_r in IH.
    cbn [map app List.length].
    replace (List.length done + S (List.length gs))%nat
      with (S (List.length done) + List.length gs)%nat by lia.
    rewrite <- IH.
    cbn beta iota zeta delta [loop]. cbn [type in_ _content existsb
      CellType_eqb orb is_].
    rewrite (content_not_soft_hyphen _ Hp), Hp.
    rewrite (peek_next done (SoftHyphen g0)
               (map SoftHyphen gs ++ SoftHyphen g :: rest)).
    replace (in_ match map SoftHyphen gs ++ SoftHyphen g :: rest with
                 | d :: _ => Some (type d)
                 | [] => None
                 end _content) with false by (now destruct gs).
    cbn [negb orb]. reflexivity.
Qed.

(** X7. A run of soft hyphens between two content cells collapses to the
    last hyphen of the run; the hyphens in front of it are dropped. *)
Theorem normalize_cells_soft_hyphen_run
        (a b : Cell) (gs : list Glue) (g : Glue) :
  is_content a = true -> is_content b = true ->
  normalize_cells (a :: map SoftHyphen gs ++ [SoftHyphen g; b])
  = Ok [a; SoftHyphen g; b].
Proof.
  intros Ha Hb. unfold normalize_cells. unfold is_content in Ha, Hb.
  assert (Hpeek : peek (a :: map SoftHyphen gs ++ [SoftHyphen g; b])
                       (1 + List.length gs) = Some (type b)).
  { change (a :: map SoftHyphen gs ++ [SoftHyphen g; b])
      with (([a] ++ map SoftHyphen gs) ++ SoftHyphen g :: [b]).
    replace (1 + List.length gs)%nat
      with (List.length ([a] ++ map SoftHyphen gs))
      by (rewrite length_app, length_map; reflexivity).
    apply peek_next. }
  cbn beta iota zeta delta [loop]. rewrite Ha. cbn [in_ app].
  pose proof (loop_soft_hyphen_run gs g [b] [a] (Some (type a)) [a] Ha)
    as Hrun.
  cbn [app List.length] in Hrun. rewrite Hrun.
  cbn beta iota zeta delta [loop]. cbn [type].
  rewrite Hpeek, Hb, Ha, (content_not_soft_hyphen _ Ha).
  change (in_ (Some TSoftHyphen) _content) with false.
  change (is_ (Some TSoftHyphen) TSoftHyphen) with true.
  cbn [negb orb bind app].
  unfold remove_pending_glue. cbn [List.length pop_loop].
  change (last_cell [a; SoftHyphen g; b]) with (Some b). cbv beta iota.
  now rewrite (content_not_glue _ Hb).
Qed.

Lemma normalize_cells_soft_hyphen_run_witness :
  let a := Text (ContentCell_init 4 1 (Renderer 0)) in
  let b := Fraction (ContentCell_init 2 3 (Renderer 1)) in
  let first := Glue_init 1 0 in
  let second := Glue_init 2 0 in
  let third := Glue_init 3 0 in
  (is_content a = true /\ is_content b = true)
  /\ normalize_cells
       (a :: map SoftHyphen [first; second] ++ [SoftHyphen third; b])
     = Ok [a; SoftHyphen third; b].
Proof.
  intros a b first second third. split; [split; reflexivity|].
  apply (normalize_cells_soft_hyphen_run a b [first; second] third);
    reflexivity.
Defined.

(* ================================================================== *)
(** * Further properties of cells, margins and anchors *)

Lemma Qmax_cases (a b : Q) :
  (Qmax a b = a /\ b <= a) \/ (Qmax a b = b /\ a <= b).
Proof.
  unfold Qmax. destruct (Qle_bool b a) eqn:E.
  - left. split; [reflexivity | now apply Qle_bool_iff].
  - right. split; [reflexivity|].
    apply Qlt_le_weak, Qnot_le_lt. intros H.
    apply Qle_bool_iff in H. congruence.
Qed.

(** X8. A glue cell is never narrower than its minimum width: resize
    keeps the minimum width, sets the width to the larger of the
    requested width and the minimum, and the constructor does the
    same. *)
Theorem Glue_resize_bounds (self : Glue) (width min_width : Q) :
  (_min_width (Glue_resize self width) = _min_width self
   /\ _min_width self <= _width (Glue_resize self width)
   /\ width <= _width (Glue_resize self width)
   /\ (_width (Glue_resize self width) = width
       \/ _width (Glue_resize self width) = _min_width self))
  /\ (_min_width (Glue_init width min_width) = min_width
      /\ min_width <= _width (Glue_init width min_width)
      /\ width <= _width (Glue_init width min_width)).
Proof.
  unfold Glue_init, Glue_resize. cbn [_min_width _width].
  destruct (Qmax_cases width (_min_width self)) as [[-> H]|[-> H]];
    destruct (Qmax_cases width min_width) as [[-> H']|[-> H']];
    repeat split; auto using Qle_refl.
Qed.

(** X9. NonBreakingSpace.to_space returns a breakable Space with the
    width and the minimum width of the non-breaking space; no other
    cell has the method: on a Space, SoftHyphen, Tab, Text or Fraction,
    that is on every cell that is not a NonBreakingSpace, the attribute
    lookup fails. *)
Theorem to_space_same_size (self : Glue) (width : Q) (c : ContentCell) :
  to_space (NonBreakingSpace (Glue_resize self width))
  = Ok (Space (Glue_resize self width))
  /\ can_break (NonBreakingSpace (Glue_resize self width)) = false
  /\ can_break (Space (Glue_resize self width)) = true
  /\ to_space (Space self) = Raise (AttributeError "to_space")
  /\ to_space (SoftHyphen self) = Raise (AttributeError "to_space")
  /\ to_space (Tab self) = Raise (AttributeError "to_space")
  /\ to_space (Text c) = Raise (AttributeError "to_space")
  /\ to_space (Fraction c) = Raise (AttributeError "to_space")
  /\ (forall cell : Cell,
        to_space cell = Raise (AttributeError "to_space")
        \/ exists g, cell = NonBreakingSpace g).
Proof.
  split; [|repeat split; try reflexivity;
           intros [g|g|g|g|c0|c0]; try (left; reflexivity);
           right; now exists g].
  unfold to_space, Glue_init, Glue_resize. cbn [_min_width _width].
  do 2 f_equal. f_equal.
  destruct (Qmax_cases width (_min_width self)) as [[-> H]|[-> H]].
  - unfold Qmax. apply Qle_bool_iff in H. now rewrite H.
  - unfold Qmax. now destruct (Qle_bool (_min_width self) (_min_width self)).
Qed.

(** X10. A column reports its sizes exactly when the margins argument
    is absent or has one to four values; for an empty sequence or more
    than four values the margins stay unresolved and total_width and
    total_height raise TypeError. *)
Theorem Column_init_sized_iff
        (width : Q) (height : option Q) (gutter_ : Q)
        (margins : option (list Q)) (render_ : option ContentRenderer) :
  (sized (Column_init width height gutter_ margins render_)
   <-> match margins with
       | None => True
       | Some ms => (1 <= List.length ms <= 4)%nat
       end)
  /\ (resolve_margins margins = None ->
      total_width (Column_init width height gutter_ margins render_)
      = Raise TypeError
      /\ total_height (Column_init width height gutter_ margins render_)
         = Raise TypeError).
Proof.
  split.
  - split.
    + intros [[w Hw] _]. destruct margins as [ms|]; [|exact I].
      destruct ms as [|a [|b [|c [|d [|e t]]]]]; simpl; try lia;
        discriminate Hw.
    + intros H. apply Column_sized. unfold wf_Column.
      cbn [_paragraphs Column_init forallb]. rewrite andb_true_r.
      unfold margins_resolved. cbn [Column_container Column_init].
      destruct margins as [ms|]; [|reflexivity].
      destruct ms as [|a [|b [|c [|d [|e t]]]]]; simpl in H; try lia;
        reflexivity.
  - intros Hnone.
    unfold total_width, total_height, right_margin, top_margin,
      Container_right_margin, Container_top_margin.
    cbn [container Column_class Column_init Column_container Container_init
           _margins content_width content_height].
    rewrite Hnone. unfold Column_content_height, max_content_height.
    cbn [Column_container _content_height].
    destruct height; split; reflexivity.
Qed.

Lemma Column_init_sized_iff_witness :
  resolve_margins (Some []) = None
  /\ total_width (Column_init 10 None 0 (Some []) None) = Raise TypeError
  /\ total_height (Column_init 10 None 0 (Some []) None) = Raise TypeError
  /\ sized (Column_init 10 None 0 (Some [1; 2]) None).
Proof.
  destruct (Column_init_sized_iff 10 None 0 (Some []) None) as [_ Hraise].
  destruct (Column_init_sized_iff 10 None 0 (Some [1; 2]) None) as [Hiff _].
  split; [reflexivity|].
  destruct (Hraise eq_refl) as [Hw Hh].
  split; [exact Hw|]. split; [exact Hh|].
  apply Hiff. simpl. lia.
Defined.

(** X11. An anchor code outside 1 to 9 is not rejected: insert_location
    returns the offset (0, 0) of the top left anchor. *)
Theorem insert_location_out_of_range (align : Z) (width height : Q) :
  (align < 1 \/ 9 < align)%Z ->
  insert_location align width height = (0, 0)
  /\ insert_location align width height = insert_location 1 width height.
Proof.
  intros Hout. unfold insert_location.
  repeat match goal with
         | |- context [(align =? ?k)%Z] =>
             destruct (Z.eqb_spec align k); [lia|]
         end.
  split; reflexivity.
Qed.

Lemma insert_location_out_of_range_witness :
  (0 < 1 \/ 9 < 0)%Z
  /\ insert_location 0 10 20 = (0, 0)
  /\ insert_location 0 10 20 = insert_location 1 10 20.
Proof.
  split; [left; lia|].
  apply (insert_location_out_of_range 0 10 20). left. lia.
Defined.

(** X12. FlowText accepts exactly the alignments 0 to 4: inside the
    range the constructor returns an unplaced paragraph with the given
    alignment, no raw content and no lines; outside it raises
    ValueError. *)
Theorem FlowText_init_alignment
        (width : Q) (align : Z) (indent : Q * Q * Q) (line_spacing : Q)
        (stops : option (list Q)) (margins : option (list Q))
        (render_ : option ContentRenderer) :
  ((0 <= align < 5)%Z ->
   exists p,
     FlowText_init width align indent line_spacing stops margins render_ = Ok p
     /\ FlowText_align p = align
     /\ FlowText_cells p = [] /\ _lines p = []
     /\ is_placed p = false /\ has_flex_height p = true)
  /\ ((align < 0 \/ 5 <= align)%Z ->
      FlowText_init width align indent line_spacing stops margins render_
      = Raise (ValueError "invalid paragraph alignment (0-4)")).
Proof.
  unfold FlowText_init. split.
  - intros [Hlo Hhi].
    apply Z.leb_le in Hlo. apply Z.ltb_lt in Hhi. rewrite Hlo, Hhi.
    cbn [andb negb]. destruct indent as [[first left_] right_].
    eexists. split; [reflexivity|]. repeat split.
  - intros Hout.
    destruct (0 <=? align)%Z eqn:Hlo; [|reflexivity].
    destruct (align <? 5)%Z eqn:Hhi; [|reflexivity].
    apply Z.leb_le in Hlo. apply Z.ltb_lt in Hhi. lia.
Qed.

Lemma FlowText_init_alignment_witness :
  ((0 <= 4 < 5)%Z /\ (-1 < 0 \/ 5 <= -1)%Z)
  /\ (exists p,
        FlowText_init 10 4 (1, 2, 3) 1 None (Some [1]) None = Ok p
        /\ FlowText_align p = 4%Z)
  /\ FlowText_init 10 (-1) (1, 2, 3) 1 None (Some [1]) None
     = Raise (ValueError "invalid paragraph alignment (0-4)").
Proof.
  split; [split; [lia | left; lia]|].
  split.
  - destruct (FlowText_init_alignment 10 4 (1, 2, 3) 1 None (Some [1]) None)
      as [Hin _].
    destruct (Hin ltac:(lia)) as (p & Hp & Ha & _).
    now exists p.
  - destruct (FlowText_init_alignment 10 (-1) (1, 2, 3) 1 None (Some [1]) None)
      as [_ Hout].
    apply Hout. left. lia.
Defined.

(* ================================================================== *)
(** * Further properties of placement *)

Lemma place_each_map {C : Type} `{ContainerClass C} (u : C -> C)
      (advance : C -> Tuple2f -> result Tuple2f) :
  (forall child x y, place (u child) x y = place child x y) ->
  forall children xy,
    place_each advance xy (map u children) = place_each advance xy children.
Proof.
  intros Hu. induction children as [|child rest IH]; intros xy; [reflexivity|].
  cbn [map place_each]. rewrite Hu.
  destruct (place child (fst xy) (snd xy)) as [child'|e]; [|reflexivity].
  cbn [bind]. destruct (advance child' xy) as [xy'|e]; [|reflexivity].
  cbn [bind]. now rewrite IH.
Qed.

Lemma place_each_result {C : Type} `{ContainerClass C} (u : C -> C)
      (advance : C -> Tuple2f -> result Tuple2f) :
  (forall child x y child', place child x y = Ok child' -> u child' = u child) ->
  forall children xy children',
    place_each advance xy children = Ok children' ->
    map u children' = map u children.
Proof.
  intros Hu. induction children as [|child rest IH]; intros xy children' Hrun.
  - injection Hrun as <-. reflexivity.
  - cbn [place_each] in Hrun.
    apply bind_Ok_inv in Hrun as (child' & Hc & Hrun).
    apply bind_Ok_inv in Hrun as (xy' & _ & Hrun).
    apply bind_Ok_inv in Hrun as (rest' & Hr & Hrun).
    injection Hrun as <-. cbn [map].
    now rewrite (Hu _ _ _ _ Hc), (IH _ _ Hr).
Qed.

Lemma place_each_stacked {C : Type} `{ContainerClass C}
      (advance : C -> Tuple2f -> result Tuple2f) :
  (forall child x y child',
      place child x y = Ok child' -> final_location child' = Ok (x, y)) ->
  forall children xy children',
    place_each advance xy children = Ok children' ->
    stacked advance xy children'.
Proof.
  intros Hloc. induction children as [|child rest IH]; intros xy children' Hrun.
  - injection Hrun as <-. exact I.
  - cbn [place_each] in Hrun.
    apply bind_Ok_inv in Hrun as (child' & Hc & Hrun).
    apply bind_Ok_inv in Hrun as (xy' & Ha & Hrun).
    apply bind_Ok_inv in Hrun as (rest' & Hr & Hrun).
    injection Hrun as <-. cbn [stacked]. split.
    + rewrite (Hloc _ _ _ _ Hc). now destruct xy.
    + exists xy'. split; [exact Ha | exact (IH _ _ Hr)].
Qed.

Lemma sum_map {A : Type} (u : A -> A) (f : A -> result Q) (xs : list A) :
  (forall x, f (u x) = f x) ->
  forall acc, sum_ f (map u xs) acc = sum_ f xs acc.
Proof.
  intros Hu. induction xs as [|x xs IH]; intros acc; [reflexivity|].
  cbn [map sum_]. rewrite Hu. destruct (f x); [|reflexivity].
  cbn [bind]. apply IH.
Qed.

Lemma max_from_map {A : Type} (u : A -> A) (f : A -> result Q) (xs : list A) :
  (forall x, f (u x) = f x) ->
  forall best, max_from f (map u xs) best = max_from f xs best.
Proof.
  intros Hu. induction xs as [|x xs IH]; intros best; [reflexivity|].
  cbn [map max_from]. rewrite Hu. destruct (f x); [|reflexivity].
  cbn [bind]. apply IH.
Qed.

Lemma removelast_map_ {A B : Type} (u : A -> B) (xs : list A) :
  removelast (map u xs) = map u (removelast xs).
Proof.
  induction xs as [|x [|y xs] IH]; [reflexivity | reflexivity|].
  cbn [map removelast] in *. now rewrite IH.
Qed.

Lemma last_map_ {A B : Type} (u : A -> B) (xs : list A) (d : A) :
  last (map u xs) (u d) = u (last xs d).
Proof.
  induction xs as [|x [|y xs] IH]; [reflexivity | reflexivity|].
  cbn [map last] in *. exact IH.
Qed.

(** ** Sizes do not depend on the final locations *)

Lemma Line_unplaced_sizes (self : Line) :
  total_width (Line_unplaced self) = total_width self
  /\ total_height (Line_unplaced self) = total_height self.
Proof. split; reflexivity. Qed.

Lemma FlowText_unplaced_sizes (self : FlowText) :
  total_width (FlowText_unplaced self) = total_width self
  /\ total_height (FlowText_unplaced self) = total_height self.
Proof. split; reflexivity. Qed.

Lemma Column_unplaced_sizes (self : Column) :
  total_width (Column_unplaced self) = total_width self
  /\ total_height (Column_unplaced self) = total_height self.
Proof.
  split; [reflexivity|].
  unfold total_height.
  replace (content_height (Column_unplaced self)) with (content_height self);
    [reflexivity|].
  cbn [content_height Column_class].
  unfold Column_content_height, max_content_height, used_content_height.
  cbn [Column_unplaced Column_container unplace _content_height _paragraphs].
  destruct (_content_height (Column_container self)); [reflexivity|].
  symmetry. apply sum_map. intros p. apply FlowText_unplaced_sizes.
Qed.

Lemma Layout_unplaced_sizes (self : Layout) :
  total_width (Layout_unplaced self) = total_width self
  /\ total_height (Layout_unplaced self) = total_height self.
Proof.
  split.
  - unfold total_width.
    replace (content_width (Layout_unplaced self)) with (content_width self);
      [reflexivity|].
    cbn [content_width Layout_class].
    unfold Layout_content_width, _calculate_content_width.
    cbn [Layout_unplaced Layout_container unplace _content_width _columns].
    destruct (_columns self) as [|c cs] eqn:E; [reflexivity|].
    rewrite <- E, removelast_map_.
    rewrite sum_map
      by (intros x; now rewrite (proj1 (Column_unplaced_sizes x))).
    rewrite E. cbn [map last_column].
    change (Column_unplaced c :: map Column_unplaced cs)
      with (map Column_unplaced (c :: cs)).
    rewrite last_map_.
    destruct (sum_ (fun c0 : Column => w <- total_width c0 ;; Ok (w + gutter c0))
                   (removelast (c :: cs)) 0); [|reflexivity].
    cbn [bind]. now rewrite (proj1 (Column_unplaced_sizes _)).
  - unfold total_height.
    replace (content_height (Layout_unplaced self)) with (content_height self);
      [reflexivity|].
    cbn [content_height Layout_class].
    unfold Layout_content_height, _calculate_content_height.
    cbn [Layout_unplaced Layout_container unplace _content_height _columns].
    destruct (_columns self) as [|c cs]; [reflexivity|].
    cbn [map max_]. rewrite (proj2 (Column_unplaced_sizes c)).
    destruct (total_height c); [|reflexivity]. cbn [bind].
    symmetry. apply max_from_map. intros x. apply Column_unplaced_sizes.
Qed.

(** ** place reads nothing of an earlier placement *)

Lemma Line_place_unplaced (self : Line) (x y : Q) :
  place (Line_unplaced self) x y = place self x y.
Proof. reflexivity. Qed.

Lemma FlowText_place_unplaced (self : FlowText) (x y : Q) :
  place (FlowText_unplaced self) x y = place self x y.
Proof.
  unfold place. cbn [place_content FlowText_class with_container container].
  unfold FlowText_place_content, FlowText_unplaced.
  cbn [FlowText_container FlowText_with_container FlowText_with_lines _lines].
  unfold Container_final_location, Container_left_margin, Container_top_margin,
    subscript. cbn [set_final unplace _final_x _final_y _margins bind].
  destruct (_margins (FlowText_container self)) as [[[[t r] b] l]|];
    [|reflexivity]. cbn [bind].
  rewrite (place_each_map Line_unplaced advance_down Line_place_unplaced).
  reflexivity.
Qed.

Lemma Column_place_unplaced (self : Column) (x y : Q) :
  place (Column_unplaced self) x y = place self x y.
Proof.
  unfold place. cbn [place_content Column_class with_container container].
  unfold Column_place_content, Column_unplaced.
  cbn [Column_container _paragraphs].
  unfold Container_final_location, Container_left_margin, Container_top_margin,
    subscript. cbn [set_final unplace _final_x _final_y _margins bind].
  destruct (_margins (Column_container self)) as [[[[t r] b] l]|];
    [|reflexivity]. cbn [bind].
  rewrite (place_each_map FlowText_unplaced advance_down
             FlowText_place_unplaced).
  reflexivity.
Qed.

Lemma Layout_place_unplaced (self : Layout) (x y : Q) :
  place (Layout_unplaced self) x y = place self x y.
Proof.
  unfold place. cbn [place_content Layout_class with_container container].
  unfold Layout_place_content, Layout_unplaced.
  cbn [Layout_container _columns].
  unfold Container_final_location, Container_left_margin, Container_top_margin,
    subscript. cbn [set_final unplace _final_x _final_y _margins bind].
  destruct (_margins (Layout_container self)) as [[[[t r] b] l]|];
    [|reflexivity]. cbn [bind].
  rewrite (place_each_map Column_unplaced advance_right Column_place_unplaced).
  reflexivity.
Qed.

(** ** place writes final locations only *)

Lemma Line_placed_unplaced (self self' : Line) (x y : Q) :
  place self x y = Ok self' -> Line_unplaced self' = Line_unplaced self.
Proof. intros [= <-]. reflexivity. Qed.

Lemma FlowText_placed_unplaced (self self' : FlowText) (x y : Q) :
  place self x y = Ok self' -> FlowText_unplaced self' = FlowText_unplaced self.
Proof.
  unfold place. cbn [place_content FlowText_class with_container container].
  unfold FlowText_place_content. intros Hp.
  bind_steps Hp. destruct a as [x0 y0]. bind_steps Hp. injection Hp as <-.
  unfold FlowText_unplaced.
  cbn [FlowText_container FlowText_with_container FlowText_with_lines _lines]
    in *.
  match goal with
  | Hl : place_each _ _ _ = Ok _ |- _ =>
      rewrite (place_each_result Line_unplaced advance_down
                 (fun c x1 y1 c' => Line_placed_unplaced c c' x1 y1)
                 _ _ _ Hl)
  end.
  reflexivity.
Qed.

Lemma Column_placed_unplaced (self self' : Column) (x y : Q) :
  place self x y = Ok self' -> Column_unplaced self' = Column_unplaced self.
Proof.
  unfold place. cbn [place_content Column_class with_container container].
  unfold Column_place_content. intros Hp.
  bind_steps Hp. destruct a as [x0 y0]. bind_steps Hp. injection Hp as <-.
  unfold Column_unplaced, Column_with_paragraphs.
  cbn [Column_container _paragraphs _gutter] in *.
  match goal with
  | Hl : place_each _ _ _ = Ok _ |- _ =>
      rewrite (place_each_result FlowText_unplaced advance_down
                 (fun c x1 y1 c' => FlowText_placed_unplaced c c' x1 y1)
                 _ _ _ Hl)
  end.
  reflexivity.
Qed.

Lemma Layout_placed_unplaced (self self' : Layout) (x y : Q) :
  place self x y = Ok self' -> Layout_unplaced self' = Layout_unplaced self.
Proof.
  unfold place. cbn [place_content Layout_class with_container container].
  unfold Layout_place_content. intros Hp.
  bind_steps Hp. destruct a as [x0 y0]. bind_steps Hp. injection Hp as <-.
  unfold Layout_unplaced, Layout_with_columns.
  cbn [Layout_container _columns _current_column _reference_column_width] in *.
  match goal with
  | Hl : place_each _ _ _ = Ok _ |- _ =>
      rewrite (place_each_result Column_unplaced advance_right
                 (fun c x1 y1 c' => Column_placed_unplaced c c' x1 y1)
                 _ _ _ Hl)
  end.
  reflexivity.
Qed.

Lemma Layout_place_inv (self self' : Layout) (x y : Q) (align : Z) :
  Layout_place self x y align = Ok self' ->
  exists w h,
    total_width self = Ok w /\ total_height self = Ok h
    /\ place self (x + fst (insert_location align w h))
             (y + snd (insert_location align w h)) = Ok self'.
Proof.
  unfold Layout_place. intros Hp.
  apply bind_Ok_inv in Hp as (w & Hw & Hp).
  apply bind_Ok_inv in Hp as (h & Hh & Hp).
  exists w, h. split; [exact Hw|]. split; [exact Hh|].
  now destruct (insert_location align w h).
Qed.

(** X13. place changes nothing but final locations: a placed line,
    paragraph, column or layout, with the final locations of itself and
    of everything it contains forgotten, is the object before the call
    with its final locations forgotten. *)
Theorem place_writes_final_locations_only
        (ln ln' : Line) (p p' : Paragraph) (c c' : Column) (l l' l'' : Layout)
        (x y : Q) (align : Z) :
  (place ln x y = Ok ln' -> Line_unplaced ln' = Line_unplaced ln)
  /\ (place p x y = Ok p' -> FlowText_unplaced p' = FlowText_unplaced p)
  /\ (place c x y = Ok c' -> Column_unplaced c' = Column_unplaced c)
  /\ (place l x y = Ok l' -> Layout_unplaced l' = Layout_unplaced l)
  /\ (Layout_place l x y align = Ok l'' ->
      Layout_unplaced l'' = Layout_unplaced l).
Proof.
  split; [apply Line_placed_unplaced|].
  split; [apply FlowText_placed_unplaced|].
  split; [apply Column_placed_unplaced|].
  split; [apply Layout_placed_unplaced|].
  intros Hp. apply Layout_place_inv in Hp as (w & h & _ & _ & Hp).
  exact (Layout_placed_unplaced _ _ _ _ Hp).
Qed.

Lemma Column_placed_sizes (self self' : Column) (x y : Q) :
  place self x y = Ok self' ->
  total_width self' = total_width self
  /\ total_height self' = total_height self.
Proof.
  intros Hp. apply Column_placed_unplaced in Hp.
  destruct (Column_unplaced_sizes self) as [Hw Hh].
  destruct (Column_unplaced_sizes self') as [Hw' Hh'].
  rewrite <- Hw, <- Hh, <- Hw', <- Hh', Hp. now split.
Qed.

Lemma Layout_placed_sizes (self self' : Layout) (x y : Q) :
  place self x y = Ok self' ->
  total_width self' = total_width self
  /\ total_height self' = total_height self.
Proof.
  intros Hp. apply Layout_placed_unplaced in Hp.
  destruct (Layout_unplaced_sizes self) as [Hw Hh].
  destruct (Layout_unplaced_sizes self') as [Hw' Hh'].
  rewrite <- Hw, <- Hh, <- Hw', <- Hh', Hp. now split.
Qed.

(** X14. Placing a column or a layout does not change its sizes:
    total_width and total_height (values or errors) are the same before
    and after place. *)
Theorem place_keeps_sizes
        (c c' : Column) (l l' : Layout) (x y : Q) (align : Z) :
  (place c x y = Ok c' ->
   total_width c' = total_width c /\ total_height c' = total_height c)
  /\ (Layout_place l x y align = Ok l' ->
      total_width l' = total_width l /\ total_height l' = total_height l).
Proof.
  split; [apply Column_placed_sizes|].
  intros Hp. apply Layout_place_inv in Hp as (w & h & _ & _ & Hp).
  exact (Layout_placed_sizes _ _ _ _ Hp).
Qed.

Lemma placed_example :
  let p := FlowText_default 10 in
  let c := Column_with_paragraphs
             (Column_init 10 None 1 (Some [1; 2; 3]) (Some (Renderer 7))) [p; p] in
  let l := fst (add_column (Layout_init 30 None (Some [1]) None)
                           None (Some 20) 1 (Some [2; 3; 4; 5]) None) in
  (exists c', place c 3 4 = Ok c') /\ (exists l', Layout_place l 3 4 5 = Ok l').
Proof.
  intros p c l. split.
  - apply Column_place_total. reflexivity.
  - destruct (Layout_place_spec l 3 4 5 eq_refl) as (w & h & _ & _ & l' & Hp & _).
    now exists l'.
Qed.

Lemma place_keeps_sizes_witness :
  let p := FlowText_default 10 in
  let c := Column_with_paragraphs
             (Column_init 10 None 1 (Some [1; 2; 3]) (Some (Renderer 7))) [p; p] in
  let l := fst (add_column (Layout_init 30 None (Some [1]) None)
                           None (Some 20) 1 (Some [2; 3; 4; 5]) None) in
  (exists c', place c 3 4 = Ok c'
              /\ total_width c' = total_width c
              /\ total_height c' = total_height c)
  /\ (exists l', Layout_place l 3 4 5 = Ok l'
                 /\ total_width l' = total_width l
                 /\ total_height l' = total_height l).
Proof.
  intros p c l.
  destruct placed_example as [[c' Hc] [l' Hl]].
  destruct (place_keeps_sizes c c' l l' 3 4 5) as [Sc Sl].
  split.
  - exists c'. split; [exact Hc | exact (Sc Hc)].
  - exists l'. split; [exact Hl | exact (Sl Hl)].
Defined.

Lemma place_writes_final_locations_only_witness :
  let ln := Line__init__ 10 0 (Some [1; 2]) None in
  let p := FlowText_default 10 in
  let c := Column_with_paragraphs
             (Column_init 10 None 1 (Some [1; 2; 3]) (Some (Renderer 7))) [p; p] in
  let l := fst (add_column (Layout_init 30 None (Some [1]) None)
                           None (Some 20) 1 (Some [2; 3; 4; 5]) None) in
  exists ln' p' c' l' l'',
    (place ln 3 4 = Ok ln' /\ place p 3 4 = Ok p' /\ place c 3 4 = Ok c'
     /\ place l 3 4 = Ok l' /\ Layout_place l 3 4 5 = Ok l'')
    /\ Line_unplaced ln' = Line_unplaced ln
    /\ FlowText_unplaced p' = FlowText_unplaced p
    /\ Column_unplaced c' = Column_unplaced c
    /\ Layout_unplaced l' = Layout_unplaced l
    /\ Layout_unplaced l'' = Layout_unplaced l.
Proof.
  intros ln p c l.
  destruct (Line_place_total ln 3 4) as [ln' Hln].
  destruct (FlowText_place_total p 3 4 eq_refl) as [p' Hp].
  destruct (Column_place_total c 3 4 eq_refl) as [c' Hc].
  destruct (Layout_place_total l 3 4 eq_refl eq_refl) as [l' Hl].
  destruct (Layout_place_spec l 3 4 5 eq_refl)
    as (w & h & _ & _ & l'' & Hl' & _).
  exists ln', p', c', l', l''.
  destruct (place_writes_final_locations_only ln ln' p p' c c' l l' l'' 3 4 5)
    as (F1 & F2 & F3 & F4 & F5).
  split; [repeat split; assumption|].
  split; [exact (F1 Hln)|]. split; [exact (F2 Hp)|].
  split; [exact (F3 Hc)|]. split; [exact (F4 Hl) | exact (F5 Hl')].
Defined.

(** ** Placing again *)

Lemma Line_place_again (self self1 : Line) (x1 y1 x2 y2 : Q) :
  place self x1 y1 = Ok self1 -> place self1 x2 y2 = place self x2 y2.
Proof.
  intros Hp. rewrite <- (Line_place_unplaced self1),
    (Line_placed_unplaced _ _ _ _ Hp). apply Line_place_unplaced.
Qed.

Lemma FlowText_place_again (self self1 : FlowText) (x1 y1 x2 y2 : Q) :
  place self x1 y1 = Ok self1 -> place self1 x2 y2 = place self x2 y2.
Proof.
  intros Hp. rewrite <- (FlowText_place_unplaced self1),
    (FlowText_placed_unplaced _ _ _ _ Hp). apply FlowText_place_unplaced.
Qed.

Lemma Column_place_again (self self1 : Column) (x1 y1 x2 y2 : Q) :
  place self x1 y1 = Ok self1 -> place self1 x2 y2 = place self x2 y2.
Proof.
  intros Hp. rewrite <- (Column_place_unplaced self1),
    (Column_placed_unplaced _ _ _ _ Hp). apply Column_place_unplaced.
Qed.

Lemma Layout_place_again (self self1 : Layout) (x1 y1 x2 y2 : Q) :
  place self x1 y1 = Ok self1 -> place self1 x2 y2 = place self x2 y2.
Proof.
  intros Hp. rewrite <- (Layout_place_unplaced self1),
    (Layout_placed_unplaced _ _ _ _ Hp). apply Layout_place_unplaced.
Qed.

(** X15. A placement forgets the one before it: placing a placed
    paragraph, column or layout again gives what placing the original
    object there gives; in particular placing it again at the same
    position changes nothing. *)
Theorem place_again_forgets_placement
        (p p1 : Paragraph) (c c1 : Column) (l l1 : Layout)
        (x1 y1 x2 y2 : Q) (align1 align2 : Z) :
  (place p x1 y1 = Ok p1 ->
   place p1 x2 y2 = place p x2 y2 /\ place p1 x1 y1 = Ok p1)
  /\ (place c x1 y1 = Ok c1 ->
      place c1 x2 y2 = place c x2 y2 /\ place c1 x1 y1 = Ok c1)
  /\ (Layout_place l x1 y1 align1 = Ok l1 ->
      Layout_place l1 x2 y2 align2 = Layout_place l x2 y2 align2
      /\ Layout_place l1 x1 y1 align1 = Ok l1).
Proof.
  split; [|split].
  - intros Hp. split; [exact (FlowText_place_again _ _ _ _ _ _ Hp)|].
    exact (eq_trans (FlowText_place_again _ _ _ _ x1 y1 Hp) Hp).
  - intros Hp. split; [exact (Column_place_again _ _ _ _ _ _ Hp)|].
    exact (eq_trans (Column_place_again _ _ _ _ x1 y1 Hp) Hp).
  - intros Hp.
    assert (Hsame : forall x y align,
               Layout_place l1 x y align = Layout_place l x y align).
    { intros x y align.
      pose proof Hp as Hinv.
      apply Layout_place_inv in Hinv as (w & h & _ & _ & Hinv).
      destruct (Layout_placed_sizes _ _ _ _ Hinv) as [Hw Hh].
      unfold Layout_place. rewrite Hw, Hh.
      destruct (total_width l) as [w'|e]; [|reflexivity].
      destruct (total_height l) as [h'|e]; [|reflexivity].
      cbn [bind]. destruct (insert_location align w' h').
      exact (Layout_place_again _ _ _ _ _ _ Hinv). }
    split; [apply Hsame|]. now rewrite Hsame.
Qed.

Lemma place_again_forgets_placement_witness :
  let p := FlowText_default 10 in
  let c := Column_with_paragraphs
             (Column_init 10 None 1 (Some [1; 2; 3]) (Some (Renderer 7))) [p; p] in
  let l := fst (add_column (Layout_init 30 None (Some [1]) None)
                           None (Some 20) 1 (Some [2; 3; 4; 5]) None) in
  exists p1 c1 l1,
    (place p 3 4 = Ok p1 /\ place c 3 4 = Ok c1
     /\ Layout_place l 3 4 5 = Ok l1)
    /\ (place p1 7 8 = place p 7 8 /\ place p1 3 4 = Ok p1)
    /\ (place c1 7 8 = place c 7 8 /\ place c1 3 4 = Ok c1)
    /\ (Layout_place l1 7 8 9 = Layout_place l 7 8 9
        /\ Layout_place l1 3 4 5 = Ok l1).
Proof.
  intros p c l.
  destruct (FlowText_place_total p 3 4 eq_refl) as [p1 Hp].
  destruct (Column_place_total c 3 4 eq_refl) as [c1 Hc].
  destruct (Layout_place_spec l 3 4 5 eq_refl)
    as (w & h & _ & _ & l1 & Hl & _).
  exists p1, c1, l1.
  destruct (place_again_forgets_placement p p1 c c1 l l1 3 4 7 8 5 9)
    as (Ap & Ac & Al).
  split; [repeat split; assumption|].
  split; [exact (Ap Hp)|]. split; [exact (Ac Hc) | exact (Al Hl)].
Defined.

Lemma place_content_after_place {T : Type} `{ContainerClass T}
      (self self1 : T) (x y : Q) :
  with_container self1 (container self1) = self1 ->
  container self1 = set_final (container self) x y ->
  place self1 x y = Ok self1 ->
  place_content self1 = Ok self1.
Proof.
  intros Heta Hc Hp. unfold place in Hp. rewrite Hc in Hp.
  change (set_final (set_final (container self) x y) x y)
    with (set_final (container self) x y) in Hp.
  now rewrite <- Hc, Heta in Hp.
Qed.

(** X16. place_content, which render calls again before it renders the
    content, leaves a paragraph, column or layout that place has placed
    as it is. *)
Theorem place_content_idempotent
        (p p1 : Paragraph) (c c1 : Column) (l l1 : Layout)
        (x y : Q) (align : Z) :
  (place p x y = Ok p1 -> place_content p1 = Ok p1)
  /\ (place c x y = Ok c1 -> place_content c1 = Ok c1)
  /\ (Layout_place l x y align = Ok l1 -> place_content l1 = Ok l1).
Proof.
  split; [|split].
  - intros Hp.
    apply (place_content_after_place p p1 x y);
      [now destruct p1 | exact (FlowText_place_container _ _ _ _ Hp)|].
    exact (eq_trans (FlowText_place_again _ _ _ _ x y Hp) Hp).
  - intros Hp.
    apply (place_content_after_place c c1 x y);
      [now destruct c1 | exact (Column_place_container _ _ _ _ Hp)|].
    exact (eq_trans (Column_place_again _ _ _ _ x y Hp) Hp).
  - intros Hp. apply Layout_place_inv in Hp as (w & h & _ & _ & Hp).
    apply (place_content_after_place l l1
             (x + fst (insert_location align w h))
             (y + snd (insert_location align w h)));
      [now destruct l1 | exact (Layout_place_container _ _ _ _ Hp)|].
    exact (eq_trans (Layout_place_again _ _ _ _ _ _ Hp) Hp).
Qed.

Lemma place_content_idempotent_witness :
  let p := FlowText_default 10 in
  let c := Column_with_paragraphs
             (Column_init 10 None 1 (Some [1; 2; 3]) (Some (Renderer 7))) [p; p] in
  let l := fst (add_column (Layout_init 30 None (Some [1]) None)
                           None (Some 20) 1 (Some [2; 3; 4; 5]) None) in
  exists p1 c1 l1,
    (place p 3 4 = Ok p1 /\ place c 3 4 = Ok c1
     /\ Layout_place l 3 4 5 = Ok l1)
    /\ place_content p1 = Ok p1
    /\ place_content c1 = Ok c1
    /\ place_content l1 = Ok l1.
Proof.
  intros p c l.
  destruct (FlowText_place_total p 3 4 eq_refl) as [p1 Hp].
  destruct (Column_place_total c 3 4 eq_refl) as [c1 Hc].
  destruct (Layout_place_spec l 3 4 5 eq_refl)
    as (w & h & _ & _ & l1 & Hl & _).
  exists p1, c1, l1.
  destruct (place_content_idempotent p p1 c c1 l l1 3 4 5) as (Ip & Ic & Il).
  split; [repeat split; assumption|].
  split; [exact (Ip Hp)|]. split; [exact (Ic Hc) | exact (Il Hl)].
Defined.

Lemma final_location_xy (c : Container) (x y x0 y0 : Q) :
  Container_final_location (set_final c x y) = Ok (x0, y0) ->
  x0 = x /\ y0 = y.
Proof. cbn. now intros [= <- <-]. Qed.

(** X17. place puts the children one after the other: the lines of a
    paragraph and the paragraphs of a column from (x + left margin,
    y - top margin) downwards, each lower than the one before by its
    total height; the columns of a layout from the same corner to the
    right, each further by the total width and the gutter of the one
    before. *)
Theorem place_stacks_children
        (p p' : Paragraph) (c c' : Column) (l l' : Layout) (x y : Q) :
  (place p x y = Ok p' ->
   exists left_ top_,
     left_margin p = Ok left_ /\ top_margin p = Ok top_
     /\ stacked advance_down (x + left_, y - top_) (_lines p'))
  /\ (place c x y = Ok c' ->
      exists left_ top_,
        left_margin c = Ok left_ /\ top_margin c = Ok top_
        /\ stacked advance_down (x + left_, y - top_) (_paragraphs c'))
  /\ (place l x y = Ok l' ->
      exists left_ top_,
        left_margin l = Ok left_ /\ top_margin l = Ok top_
        /\ stacked advance_right (x + left_, y - top_) (_columns l')).
Proof.
  split; [|split].
  - unfold place. cbn [place_content FlowText_class with_container container].
    unfold FlowText_place_content. intros Hp.
    cbn [FlowText_container FlowText_with_container _lines] in Hp.
    bind_steps Hp. destruct a as [x0 y0]. bind_steps Hp. injection Hp as <-.
    destruct (final_location_xy _ _ _ _ _ Hstep) as [-> ->].
    exists a, a0. split; [exact Hstep0|]. split; [exact Hstep1|].
    cbn [_lines FlowText_with_lines].
    exact (place_each_stacked advance_down
             (fun ch x1 y1 ch' => Line_anchored ch x1 y1 ch') _ _ _ Hstep2).
  - unfold place. cbn [place_content Column_class with_container container].
    unfold Column_place_content. intros Hp.
    cbn [Column_container _paragraphs] in Hp.
    bind_steps Hp. destruct a as [x0 y0]. bind_steps Hp. injection Hp as <-.
    destruct (final_location_xy _ _ _ _ _ Hstep) as [-> ->].
    exists a, a0. split; [exact Hstep0|]. split; [exact Hstep1|].
    cbn [_paragraphs Column_with_paragraphs].
    exact (place_each_stacked advance_down
             (fun ch x1 y1 ch' => FlowText_anchored ch x1 y1 ch') _ _ _ Hstep2).
  - unfold place. cbn [place_content Layout_class with_container container].
    unfold Layout_place_content. intros Hp.
    cbn [Layout_container _columns] in Hp.
    bind_steps Hp. destruct a as [x0 y0]. bind_steps Hp. injection Hp as <-.
    destruct (final_location_xy _ _ _ _ _ Hstep) as [-> ->].
    exists a, a0. split; [exact Hstep0|]. split; [exact Hstep1|].
    cbn [_columns Layout_with_columns].
    exact (place_each_stacked advance_right
             (fun ch x1 y1 ch' => Column_anchored ch x1 y1 ch') _ _ _ Hstep2).
Qed.

Lemma place_stacks_children_witness :
  let p := FlowText_default 10 in
  let q := match FlowText_init 10 0 (0, 0, 0) 1 None (Some [1; 2]) None with
           | Ok q => q
           | Raise _ => p
           end in
  let c := Column_with_paragraphs
             (Column_init 10 None 1 (Some [1; 2; 3]) None) [q; p] in
  exists c' q' p',
    place c 3 4 = Ok c'
    /\ _paragraphs c' = [q'; p']
    /\ final_location q' = Ok (3 + 2, 4 - 1)
    /\ final_location p' = Ok (3 + 2, 4 - 1 - (0 + 1 + 1)).
Proof.
  intros p q c.
  destruct (Column_place_total c 3 4 eq_refl) as [c' Hc].
  destruct (place_stacks_children p p c c' (Layout_init 1 None None None)
              (Layout_init 1 None None None) 3 4) as (_ & Sc & _).
  destruct (Sc Hc) as (left_ & top_ & Hl & Ht & Hs).
  injection Hl as <-. injection Ht as <-.
  pose proof Hc as Hc0. vm_compute in Hc0. injection Hc0 as Hc0.
  rewrite <- Hc0 in Hs. cbn [_paragraphs stacked] in Hs.
  destruct Hs as (Hq & xy' & Hadv & Hp & _).
  vm_compute in Hadv. injection Hadv as <-.
  eexists c', _, _. split; [exact Hc|].
  split; [rewrite <- Hc0; reflexivity|].
  split; [vm_compute in Hq |- *; exact Hq | vm_compute in Hp |- *; exact Hp].
Defined.

(* ================================================================== *)
(** * Further properties of rendering, columns and layouts *)

Lemma background_first {T : Type} `{ContainerClass T}
      (self : T) (m : option Matrix44) :
  draws_background_first self m.
Proof.
  intros r x y w h Hloc Hr Hw Hh.
  exists (Suspended (render_body self m)). split; [reflexivity|].
  unfold render_body, render_background, is_placed, Container_is_placed.
  rewrite Hloc, Hr, Hw, Hh.
  unfold final_location, Container_final_location in Hloc.
  destruct (_final_x (container self)), (_final_y (container self));
    try discriminate.
  cbn [negb bind run_lift run_bind run_yield ended yielded app].
  destruct (place_content self) as [self'|e]; reflexivity.
Qed.

(** X18. When a placed paragraph, column or layout has a renderer, the
    first value its render generator yields is the renderer's call for
    the background, over the whole box of the container: from (x, y)
    to the right by total_width and down by total_height, margins
    included. *)
Theorem render_draws_background_first
        (p : Paragraph) (c : Column) (l : Layout) (m : option Matrix44) :
  draws_background_first p m
  /\ draws_background_first c m
  /\ draws_background_first l m.
Proof. repeat split; apply background_first. Qed.

Lemma render_draws_background_first_witness :
  let c := Column_init 10 (Some 20) 1 (Some [1; 2; 3]) (Some (Renderer 7)) in
  exists c' g,
    place c 3 4 = Ok c'
    /\ final_location c' = Ok (3, 4)
    /\ _render (container c') = Some (Renderer 7)
    /\ total_width c' = Ok (10 + 2 + 2)
    /\ total_height c' = Ok (20 + 1 + 3)
    /\ render c' None = Ok g
    /\ next g = Ok (Some (Some {| rc_renderer := Renderer 7;
                                  rc_left := 3; rc_bottom := 4 - (20 + 1 + 3);
                                  rc_right := 3 + (10 + 2 + 2); rc_top := 4;
                                  rc_m := None |})).
Proof.
  intros c.
  destruct (Column_place_total c 3 4 eq_refl) as [c' Hc].
  pose proof Hc as Hc0. vm_compute in Hc0. injection Hc0 as Hc0.
  destruct (render_draws_background_first (FlowText_default 1) c'
              (Layout_init 1 None None None) None) as (_ & Bc & _).
  assert (Hloc : final_location c' = Ok (3, 4)) by (now rewrite <- Hc0).
  assert (Hr : _render (container c') = Some (Renderer 7))
    by (now rewrite <- Hc0).
  assert (Hw : total_width c' = Ok (10 + 2 + 2)) by (now rewrite <- Hc0).
  assert (Hh : total_height c' = Ok (20 + 1 + 3)) by (now rewrite <- Hc0).
  destruct (Bc _ _ _ _ _ Hloc Hr Hw Hh) as (g & Hg & Hn).
  exists c', g. repeat split; assumption.
Defined.

Lemma margin_values (c : Container) (t r b l : Q) :
  Container_top_margin c = Ok t -> Container_right_margin c = Ok r ->
  Container_bottom_margin c = Ok b -> Container_left_margin c = Ok l ->
  _margins c = Some (t, r, b, l).
Proof.
  unfold Container_top_margin, Container_right_margin,
    Container_bottom_margin, Container_left_margin, subscript.
  destruct (_margins c) as [[[[t' r'] b'] l']|]; [|discriminate].
  now intros [= ->] [= ->] [= ->] [= ->].
Qed.

(** X19. clone_empty returns a column without paragraphs and without a
    final location that has the content width, gutter, margins, renderer
    and total width of the original.  Its height is always fixed, at the
    content height the original has at that moment, also when the
    original is flexible.  The call returns whenever the margins of the
    column and of its paragraphs are resolved. *)
Theorem clone_empty_spec (self empty : Column) :
  (clone_empty self = Ok empty ->
   _paragraphs empty = []
   /\ is_placed empty = false
   /\ gutter empty = gutter self
   /\ _render (container empty) = _render (container self)
   /\ _margins (container empty) = _margins (container self)
   /\ total_width empty = total_width self
   /\ has_flex_height empty = false
   /\ exists h,
       content_height self = Ok h /\ max_content_height empty = Some h)
  /\ (wf_Column self = true -> exists e, clone_empty self = Ok e).
Proof.
  split.
  - unfold clone_empty. intros Hc.
    apply bind_Ok_inv in Hc as (h & Hh & Hc).
    apply bind_Ok_inv in Hc as (t & Ht & Hc).
    apply bind_Ok_inv in Hc as (r & Hr & Hc).
    apply bind_Ok_inv in Hc as (b & Hb & Hc).
    apply bind_Ok_inv in Hc as (l & Hl & Hc).
    injection Hc as <-.
    pose proof (margin_values _ _ _ _ _ Ht Hr Hb Hl) as Hm.
    cbn [container Column_class] in Hm.
    split; [reflexivity|]. split; [reflexivity|]. split; [reflexivity|].
    split; [reflexivity|].
    split; [cbn; now rewrite Hm|].
    split.
    { unfold total_width, right_margin, left_margin, Container_right_margin,
        Container_left_margin.
      cbn [container content_width Column_class Column_init Column_container
             Container_init _margins resolve_margins List.length Nat.eqb nth
             Container_content_width _content_width].
      now rewrite Hm. }
    split; [reflexivity|].
    exists h. split; [exact Hh | reflexivity].
  - intros Hwf. destruct (Column_sized self Hwf) as [_ [th Hth]].
    unfold wf_Column in Hwf. apply andb_true_iff in Hwf as [Hm Hps].
    unfold total_height in Hth.
    apply bind_Ok_inv in Hth as (h & Hh & _).
    unfold clone_empty, top_margin, right_margin, bottom_margin, left_margin,
      Container_top_margin, Container_right_margin, Container_bottom_margin,
      Container_left_margin, subscript.
    change (content_height self) with (Column_content_height self) in Hh.
    rewrite Hh. cbn [bind container Column_class].
    unfold margins_resolved in Hm.
    destruct (_margins (Column_container self)) as [[[[t r] b] l]|];
      [|discriminate].
    cbn [bind]. eauto.
Qed.

Lemma clone_empty_spec_witness :
  let p := FlowText_default 10 in
  let q := match FlowText_init 10 0 (0, 0, 0) 1 None (Some [1; 2]) None with
           | Ok q => q
           | Raise _ => p
           end in
  let c := Column_with_paragraphs
             (Column_init 10 None 1 (Some [1; 2; 3]) (Some (Renderer 7)))
             [q; q] in
  wf_Column c = true
  /\ has_flex_height c = true
  /\ exists e,
      clone_empty c = Ok e
      /\ _paragraphs e = []
      /\ has_flex_height e = false
      /\ max_content_height e = Some (0 + (0 + 1 + 1) + (0 + 1 + 1))
      /\ total_width e = total_width c.
Proof.
  intros p q c. split; [reflexivity|]. split; [reflexivity|].
  destruct (clone_empty_spec c c) as [_ Htotal].
  destruct (Htotal eq_refl) as [e He].
  destruct (clone_empty_spec c e) as [Hspec _].
  destruct (Hspec He) as (Hp & _ & _ & _ & _ & Hw & Hf & h & Hh & Hmax).
  exists e. split; [exact He|]. split; [exact Hp|]. split; [exact Hf|].
  split; [|exact Hw].
  vm_compute in Hh. injection Hh as <-. rewrite Hmax. reflexivity.
Defined.

Lemma update_nth_same {A : Type} (l : list A) :
  forall i x, nth_error l i = Some x -> update_nth i x l = l.
Proof.
  induction l as [|a t IH]; intros [|i] x Hn; try discriminate.
  - now injection Hn as ->.
  - simpl. now rewrite (IH _ _ Hn).
Qed.

Lemma Column_append_no_paragraphs (column : Column) :
  Column_append_paragraphs column [] = (column, Ok []).
Proof.
  unfold Column_append_paragraphs.
  destruct (has_flex_height column); [|reflexivity].
  now destruct column.
Qed.

Lemma Column_append_fixed (column : Column) (ps : list Paragraph) :
  has_flex_height column = false ->
  Column_append_paragraphs column ps = (column, Ok []).
Proof. unfold Column_append_paragraphs. now intros ->. Qed.

Lemma Layout_with_columns_same (self : Layout) :
  Layout_with_columns self (_current_column self) (_columns self) = self.
Proof. now destruct self. Qed.

(** One round of the first loop on the column under the cursor, when
    that column hands no paragraph back. *)
Lemma fill_existing_current (self : Layout) (column : Column)
      (ps : list Paragraph) (r : result (list Paragraph)) :
  nth_error (_columns self) (_current_column self) = Some column ->
  Column_append_paragraphs column ps = (column, r) ->
  (forall remainer, r = Ok remainer -> remainer = []) ->
  fill_existing (List.length (_columns self)) self ps
  = Some (self, match r with
                | Ok _ => Returned
                | Raise e => Raised e
                end).
Proof.
  intros Hn Happ Hrem.
  assert (Hlt : (_current_column self < List.length (_columns self))%nat)
    by (apply nth_error_Some; congruence).
  destruct (List.length (_columns self)) as [|fuel] eqn:Hlen; [lia|].
  cbn [fill_existing]. rewrite Hlen.
  apply Nat.ltb_lt in Hlt. rewrite Hlt, Hn, Happ.
  rewrite (update_nth_same _ _ _ Hn), Layout_with_columns_same.
  destruct r as [remainer|e]; [|reflexivity].
  now rewrite (Hrem remainer eq_refl).
Qed.

(** X20. Layout.append_paragraphs with an empty list of paragraphs never
    fails and changes nothing, whether the layout has columns or not. *)
Theorem Layout_append_no_paragraphs (self : Layout) :
  Layout_append_paragraphs self [] = Some (self, Ok tt).
Proof.
  unfold Layout_append_paragraphs.
  destruct (nth_error (_columns self) (_current_column self))
    as [column|] eqn:Hn.
  - rewrite (fill_existing_current self column [] (Ok [])
               Hn (Column_append_no_paragraphs column));
      [reflexivity | now intros remainer [= <-]].
  - apply nth_error_None in Hn. apply Nat.ltb_ge in Hn.
    destruct (List.length (_columns self)) as [|fuel] eqn:Hlen;
      cbn [fill_existing]; rewrite Hlen, Hn; reflexivity.
Qed.

(** X21. When the cursor of the layout is on an existing column,
    Layout.append_paragraphs never changes the layout: it stores no
    paragraph, does not move the cursor and creates no column.  With a
    fixed-height column it returns normally, so the paragraphs are
    dropped; with a flexible column and at least one paragraph it raises
    AttributeError. *)
Theorem Layout_append_on_existing_column
        (self : Layout) (column : Column) (ps : list Paragraph) :
  nth_error (_columns self) (_current_column self) = Some column ->
  Layout_append_paragraphs self ps
  = Some (self,
          match ps with
          | [] => Ok tt
          | _ :: _ =>
              if has_flex_height column
              then Raise (AttributeError "freeze")
              else Ok tt
          end).
Proof.
  intros Hn. unfold Layout_append_paragraphs.
  destruct ps as [|p ps].
  - rewrite (fill_existing_current self column [] (Ok [])
               Hn (Column_append_no_paragraphs column));
      [reflexivity | now intros remainer [= <-]].
  - destruct (has_flex_height column) eqn:Hflex.
    + rewrite (fill_existing_current self column (p :: ps)
                 (Raise (AttributeError "freeze")) Hn
                 (Column_append_paragraphs_flex column p ps Hflex));
        [reflexivity | discriminate].
    + rewrite (fill_existing_current self column (p :: ps) (Ok [])
                 Hn (Column_append_fixed column (p :: ps) Hflex));
        [reflexivity | now intros remainer [= <-]].
Qed.

Lemma Layout_append_on_existing_column_witness :
  let p := FlowText_default 10 in
  let fixed := fst (add_column (Layout_init 30 None None None)
                               None (Some 20) 1 None None) in
  let flexible := fst (add_column (Layout_init 30 None None None)
                                  None None 1 None None) in
  (nth_error (_columns fixed) (_current_column fixed)
   = Some (Column_init 30 (Some 20) 1 None None)
   /\ nth_error (_columns flexible) (_current_column flexible)
      = Some (Column_init 30 None 1 None None))
  /\ Layout_append_paragraphs fixed [p; p] = Some (fixed, Ok tt)
  /\ Layout_append_paragraphs flexible [p; p]
     = Some (flexible, Raise (AttributeError "freeze")).
Proof.
  intros p fixed flexible. split; [split; reflexivity|].
  split.
  - apply (Layout_append_on_existing_column fixed
             (Column_init 30 (Some 20) 1 None None) [p; p]).
    reflexivity.
  - apply (Layout_append_on_existing_column flexible
             (Column_init 30 None 1 None None) [p; p]).
    reflexivity.
Defined.



Lemma max_from_bound {A : Type} (f : A -> result Q) (xs : list A) :
  forall best m,
    max_from f xs best = Ok m ->
    best <= m
    /\ (forall x, In x xs -> exists v, f x = Ok v /\ v <= m)
    /\ (m = best \/ exists x, In x xs /\ f x = Ok m).
Proof.
  induction xs as [|x xs IH]; intros best m Hm.
  - injection Hm as <-. split; [apply Qle_refl|]. split; [intros x []|now left].
  - cbn [max_from] in Hm. apply bind_Ok_inv in Hm as (v & Hv & Hm).
    destruct (IH _ _ Hm) as (Hb & Hall & Hatt).
    assert (Hle : best <= (if Qle_bool v best then best else v)
                  /\ v <= (if Qle_bool v best then best else v)).
    { destruct (Qle_bool v best) eqn:E.
      - split; [apply Qle_refl | now apply Qle_bool_iff].
      - split; [|apply Qle_refl].
        apply Qlt_le_weak, Qnot_le_lt. intros Hc.
        apply Qle_bool_iff in Hc. congruence. }
    destruct Hle as [Hle1 Hle2].
    split; [now apply Qle_trans with (if Qle_bool v best then best else v)|].
    split.
    + intros y [<-|Hy].
      * exists v. split; [exact Hv|].
        now apply Qle_trans with (if Qle_bool v best then best else v).
      * now apply Hall.
    + destruct Hatt as [->|(y & Hy & Hfy)].
      * destruct (Qle_bool v best); [now left|].
        right. exists x. split; [now left | exact Hv].
      * right. exists y. split; [now right | exact Hfy].
Qed.

(** X23. When a layout has columns, its content height is the total
    height of its tallest column: no column is taller, and one column
    has exactly that height; the height given to the constructor is not
    used. *)
Theorem Layout_content_height_tallest (self : Layout) (m : Q) :
  _columns self <> [] ->
  content_height self = Ok m ->
  (forall c, In c (_columns self) ->
             exists h, total_height c = Ok h /\ h <= m)
  /\ (exists c, In c (_columns self) /\ total_height c = Ok m).
Proof.
  intros Hne Hm.
  cbn [content_height Layout_class] in Hm.
  unfold Layout_content_height, _calculate_content_height in Hm.
  destruct (_columns self) as [|c cs]; [congruence|].
  cbn [max_] in Hm. apply bind_Ok_inv in Hm as (v & Hv & Hm).
  destruct (max_from_bound _ _ _ _ Hm) as (Hb & Hall & Hatt).
  split.
  - intros y [<-|Hy]; [now exists v | now apply Hall].
  - destruct Hatt as [->|(y & Hy & Hfy)].
    + exists c. split; [now left | exact Hv].
    + exists y. split; [now right | exact Hfy].
Qed.

Lemma Layout_content_height_tallest_witness :
  let l0 := Layout_init 30 (Some 1000) None None in
  let l1 := fst (add_column l0 None (Some 20) 0 None None) in
  let l2 := fst (add_column l1 None (Some 50) 0 (Some [1]) None) in
  let l3 := fst (add_column l2 None (Some 10) 0 None None) in
  _columns l3 <> []
  /\ content_height l3 = Ok (50 + 1 + 1)
  /\ (exists c, In c (_columns l3) /\ total_height c = Ok (50 + 1 + 1)).
Proof.
  intros l0 l1 l2 l3. split; [discriminate|]. split; [reflexivity|].
  apply (Layout_content_height_tallest l3 (50 + 1 + 1));
    [discriminate | reflexivity].
Defined.

(* ================================================================== *)
(** * What normalize_cells removes *)

Lemma loop_non_hyphens (todo : list Cell) :
  forall cells index prev content out,
    loop cells index todo prev content = Ok out ->
    filter not_soft_hyphen out
    = filter not_soft_hyphen content ++ filter not_soft_hyphen todo.
Proof.
  induction todo as [|c t IH]; intros cells index prev content out Hl.
  - simpl in Hl. injection Hl as <-. simpl. now rewrite app_nil_r.
  - assert (Hkeep : forall prev',
               loop cells (S index) t prev' (content ++ [c]) = Ok out ->
               filter not_soft_hyphen out
               = filter not_soft_hyphen content
                 ++ filter not_soft_hyphen (c :: t)).
    { intros prev' H'. rewrite (IH _ _ _ _ _ H'), filter_app, <- app_assoc.
      change (c :: t) with ([c] ++ t). now rewrite (filter_app _ [c] t). }
    assert (Hdrop : is_soft_hyphen c = true ->
               forall prev',
                 loop cells (S index) t prev' content = Ok out ->
                 filter not_soft_hyphen out
                 = filter not_soft_hyphen content
                   ++ filter not_soft_hyphen (c :: t)).
    { intros Hc prev' H'. rewrite (IH _ _ _ _ _ H'). cbn [filter].
      replace (not_soft_hyphen c) with false; [reflexivity|].
      unfold not_soft_hyphen. now rewrite Hc. }
    cbn beta iota zeta delta [loop] in Hl.
    destruct (in_ (Some (type c)) _content) eqn:Ec.
    + destruct (in_ prev _content); [discriminate|]. now apply (Hkeep _ Hl).
    + destruct (is_ (Some (type c)) TSoftHyphen) eqn:Es.
      * destruct (is_ prev TSoftHyphen); [now apply (Hdrop Es _ Hl)|].
        destruct (negb (in_ prev _content)
                  || negb (in_ (peek cells index) _content));
          [now apply (Hdrop Es _ Hl) | now apply (Hkeep _ Hl)].
      * now apply (Hkeep _ Hl).
Qed.

Lemma loop_last_content (c : Cell) (todo : list Cell) :
  is_content c = true ->
  forall cells index prev content out,
    loop cells index (todo ++ [c]) prev content = Ok out ->
    exists front, out = front ++ [c].
Proof.
  intros Hc. unfold is_content in Hc.
  induction todo as [|d t IH]; intros cells index prev content out Hl.
  - cbn [app] in Hl. cbn beta iota zeta delta [loop] in Hl.
    rewrite Hc in Hl. destruct (in_ prev _content); [discriminate|].
    injection Hl as <-. now exists content.
  - cbn [app] in Hl. cbn beta iota zeta delta [loop] in Hl.
    repeat match type of Hl with
           | context [if ?b then _ else _] => destruct b
           end; try discriminate; exact (IH _ _ _ _ _ Hl).
Qed.

Lemma Subseq_forallb {A : Type} (P : A -> bool) (l1 l2 : list A) :
  Subseq l1 l2 -> forallb P l2 = true -> forallb P l1 = true.
Proof.
  induction 1 as [|x l1 l2 Hs IH|x l1 l2 Hs IH]; simpl; intros Hall.
  - reflexivity.
  - apply andb_true_iff in Hall as [Hx Hall]. now rewrite Hx, IH.
  - apply andb_true_iff in Hall as [_ Hall]. now apply IH.
Qed.

Lemma filter_all {A : Type} (P : A -> bool) (l : list A) :
  forallb P l = true -> filter P l = l.
Proof.
  induction l as [|x l IH]; simpl; intros Hall; [reflexivity|].
  apply andb_true_iff in Hall as [Hx Hall]. now rewrite Hx, IH.
Qed.

(** X24. From an input that ends with a content cell normalize_cells
    removes soft hyphens only: all other cells are returned, in their
    order; an input without soft hyphens is returned unchanged. *)
Theorem normalize_cells_removes_soft_hyphens_only
        (cells out : list Cell) (c : Cell) :
  is_content c = true ->
  normalize_cells (cells ++ [c]) = Ok out ->
  filter not_soft_hyphen out = filter not_soft_hyphen (cells ++ [c])
  /\ (forallb not_soft_hyphen cells = true -> out = cells ++ [c]).
Proof.
  intros Hc Hn.
  assert (Hsub : Subseq out (cells ++ [c])).
  { unfold normalize_cells in Hn.
    apply bind_Ok_inv in Hn as (content & Hloop & Hout).
    injection Hout as <-.
    destruct (loop_appends _ _ _ _ _ _ Hloop) as (appended & -> & Hs & _).
    simpl in *.
    destruct (pop_loop_popped (List.length appended) appended)
      as (popped & Hp & _).
    unfold remove_pending_glue.
    remember (pop_loop (List.length appended) appended) as kept_cells eqn:Hk.
    clear Hk. apply Subseq_trans with appended; [|exact Hs].
    rewrite Hp. apply Subseq_prefix. }
  assert (Hfilter : filter not_soft_hyphen out
                    = filter not_soft_hyphen (cells ++ [c])).
  { unfold normalize_cells in Hn.
    apply bind_Ok_inv in Hn as (content & Hloop & Hout).
    injection Hout as <-.
    destruct (loop_last_content c cells Hc _ _ _ _ _ Hloop) as [front ->].
    unfold remove_pending_glue. rewrite pop_loop_fixed.
    - now rewrite (loop_non_hyphens _ _ _ _ _ _ Hloop).
    - rewrite last_type_snoc. now apply content_not_glue. }
  split; [exact Hfilter|].
  intros Hall.
  assert (Hall' : forallb not_soft_hyphen (cells ++ [c]) = true).
  { rewrite forallb_app, Hall. simpl. rewrite andb_true_r.
    destruct c; cbv in Hc; try discriminate Hc; reflexivity. }
  rewrite <- (filter_all _ _ (Subseq_forallb _ _ _ Hsub Hall')), Hfilter.
  now apply filter_all.
Qed.

Lemma normalize_cells_removes_soft_hyphens_only_witness :
  let t := Text (ContentCell_init 4 1 (Renderer 0)) in
  let f := Fraction (ContentCell_init 2 3 (Renderer 1)) in
  let s := Space (Glue_init 1 (1 # 2)) in
  let n := NonBreakingSpace (Glue_init 1 1) in
  let h := SoftHyphen (Glue_init 0 0) in
  (is_content f = true
   /\ normalize_cells ([s; h; t; h; s; n; t; h] ++ [f]) = Ok [s; t; s; n; t; h; f]
   /\ forallb not_soft_hyphen [s; t; n] = true
   /\ normalize_cells ([s; t; n] ++ [f]) = Ok ([s; t; n] ++ [f]))
  /\ filter not_soft_hyphen [s; t; s; n; t; h; f]
     = filter not_soft_hyphen ([s; h; t; h; s; n; t; h] ++ [f]).
Proof.
  intros t f s n h. split; [repeat split|].
  apply (normalize_cells_removes_soft_hyphens_only
           [s; h; t; h; s; n; t; h] [s; t; s; n; t; h; f] f); reflexivity.
Defined.

(** X25. A flexible column always has free space; a fixed-height column
    has free space exactly while the total height of its paragraphs is
    below its height, so an empty column of height zero or less never
    has. *)
Theorem has_free_space_spec
        (self : Column) (width gutter_ height : Q)
        (margins : option (list Q)) (render_ : option ContentRenderer) :
  (max_content_height self = None -> has_free_space self = Ok true)
  /\ (forall max_height used,
        max_content_height self = Some max_height ->
        used_content_height self = Ok used ->
        exists free,
          has_free_space self = Ok free
          /\ (free = true <-> used < max_height))
  /\ (has_free_space (Column_init width (Some height) gutter_ margins render_)
      = Ok true <-> 0 < height).
Proof.
  assert (Hlt : forall a b, negb (Qle_bool b a) = true <-> a < b).
  { intros a b. rewrite negb_true_iff. split.
    - intros Hf. apply Qnot_le_lt. intros Hle.
      apply Qle_bool_iff in Hle. congruence.
    - intros Hab. destruct (Qle_bool b a) eqn:E; [|reflexivity].
      apply Qle_bool_iff in E. exfalso. exact (Qlt_not_le _ _ Hab E). }
  unfold has_free_space. split; [now intros ->|]. split.
  - intros max_height used -> ->. cbn [bind].
    eexists. split; [reflexivity | apply Hlt].
  - cbn [max_content_height Column_init Column_container Container_init
           _content_height used_content_height _paragraphs sum_ bind].
    split.
    + intros [= Hf]. now apply Hlt.
    + intros Hpos. f_equal. now apply Hlt.
Qed.

Lemma has_free_space_spec_witness :
  let p := FlowText_default 10 in
  let q := match FlowText_init 10 0 (0, 0, 0) 1 None (Some [2]) None with
           | Ok q => q
           | Raise _ => p
           end in
  let c := Column_with_paragraphs (Column_init 10 (Some 5) 0 None None) [q] in
  let full := Column_with_paragraphs (Column_init 10 (Some 4) 0 None None) [q] in
  (max_content_height c = Some 5 /\ used_content_height c = Ok (0 + (0 + 2 + 2))
   /\ max_content_height (Column_init 10 None 0 None None) = None)
  /\ has_free_space c = Ok true
  /\ has_free_space full = Ok false
  /\ has_free_space (Column_init 10 None 0 None None) = Ok true.
Proof.
  intros p q c full.
  split; [repeat split|].
  destruct (has_free_space_spec c 1 1 1 None None) as (_ & Hc & _).
  destruct (Hc 5 (0 + (0 + 2 + 2)) eq_refl eq_refl) as (free & Hfree & Hiff).
  split; [|split; [reflexivity|]].
  - rewrite Hfree. f_equal. apply Hiff. reflexivity.
  - destruct (has_free_space_spec (Column_init 10 None 0 None None)
                1 1 1 None None) as (Hflex & _ & _).
    apply Hflex. reflexivity.
Defined.

Lemma normalize_cells_succeeds_iff_witness :
  let t := Text (ContentCell_init 4 1 (Renderer 0)) in
  let f := Fraction (ContentCell_init 2 3 (Renderer 1)) in
  let h := SoftHyphen (Glue_init 0 0) in
  (no_adjacent_content [h; t; h; h; f; h] = true
   /\ exists out, normalize_cells [h; t; h; h; f; h] = Ok out)
  /\ (no_adjacent_content [h; t; f] = false
      /\ ~ exists out, normalize_cells [h; t; f] = Ok out).
Proof.
  intros t f h. split.
  - split; [reflexivity|].
    apply (proj2 (normalize_cells_succeeds_iff [h; t; h; h; f; h])).
    reflexivity.
  - split; [reflexivity|]. intros Hex.
    apply (proj1 (normalize_cells_succeeds_iff [h; t; f])) in Hex.
    discriminate Hex.
Defined.
